(** * Vynlo account server ([server.js]): credential lifecycle

    A shallow embedding of the account routes of [server.js] and the
    properties of the credential lifecycle that its specification states.

    The server keeps its accounts in [database/accounts.json], a JSON array
    of objects, and talks JSON with its clients.  JavaScript objects are
    modelled as association lists in property order, [undefined] as [None],
    exceptions as [None] in the option monad, and the clock and the random
    generator as inputs of every request. *)

From stdpp Require Import base numbers option list strings pretty.

Local Open Scope Z_scope.
Local Open Scope string_scope.

(** ** JSON values and JavaScript objects

    A number is an integer that [JSON.stringify] writes and [JSON.parse]
    reads back unchanged, as the clock readings of the server are.  The
    numbers that do not come back as they were ([1e999] is read as
    [Infinity] and written as [null]) have no value here: the statements
    below that depend on a value of the request coming back from the file
    take it to be a string. *)

#[warnings="-register-all"]
Inductive value :=
  | VNull
  | VBool (b : bool)
  | VNum (n : Z)
  | VStr (s : string)
  | VArr (items : list value)
  | VObj (props : list (string * value)).

(** An object is the list of its own properties, in insertion order. *)
Abbreviation obj := (list (string * value)).

(** [o.k]: the first binding of [k], [None] standing for [undefined]. *)
Fixpoint get (k : string) (o : obj) : option value :=
  match o with
  | [] => None
  | (k', v) :: o' => if decide (k' = k) then Some v else get k o'
  end.

(** [o.k = v]: an existing property keeps its place, a new one goes last. *)
Fixpoint set (k : string) (v : value) (o : obj) : obj :=
  match o with
  | [] => [(k, v)]
  | (k', v') :: o' =>
      if decide (k' = k) then (k, v) :: o' else (k', v') :: set k v o'
  end.

(** [const {k1, ..., kn, ...rest} = o]: the properties of [o] not named. *)
Definition omit (ks : list string) (o : obj) : obj :=
  filter (λ kv, kv.1 ∉ ks) o.

(** An object literal [{k1: e1, ...}] as [JSON.stringify] shows it: a
    property whose value is [undefined] is left out. *)
Definition literal (fields : list (string * option value)) : obj :=
  omap (λ kv, (kv.1,.) <$> kv.2) fields.

(** Property access on an arbitrary JSON value, as destructuring does it:
    primitives and arrays have none of the properties the server names. *)
Definition prop (k : string) (v : value) : option value :=
  match v with
  | VObj o => get k o
  | _ => None
  end.

(** JavaScript truthiness ([!x] is its negation). *)
Definition truthy (x : option value) : bool :=
  match x with
  | None => false
  | Some VNull => false
  | Some (VBool b) => b
  | Some (VNum n) => negb (Z.eqb n 0)
  | Some (VStr s) => negb (String.eqb s "")
  | Some (VArr _) => true
  | Some (VObj _) => true
  end.

(** [x === y] between a value read from the request and one read from the
    file: primitives compare by value, while two arrays or objects that come
    from two different [JSON.parse] calls are never the same object. *)
Definition strict_eq (x y : option value) : bool :=
  match x, y with
  | None, None => true
  | Some VNull, Some VNull => true
  | Some (VBool a), Some (VBool b) => Bool.eqb a b
  | Some (VNum a), Some (VNum b) => Z.eqb a b
  | Some (VStr a), Some (VStr b) => String.eqb a b
  | _, _ => false
  end.

(** [body || {}] *)
Definition or_empty (body : value) : value :=
  if truthy (Some body) then body else VObj [].

(** ** The runtime the server calls into

    [crypto.scryptSync], the [md5] and [sha256] digests (hex encoded) and
    the number coercion of the language are not part of the repository:
    they are parameters of the development. *)

Class Runtime := {
  (** [crypto.scryptSync(password, salt, 64).toString('hex')] on strings *)
  scrypt : string → string → string;
  (** [crypto.createHash('md5').update(s).digest('hex')] *)
  md5 : string → string;
  (** [crypto.createHash('sha256').update(s).digest('hex')] *)
  sha256 : string → string;
  (** [ToNumber] on strings, arrays and objects; [None] is [NaN] *)
  toNumber : value → option Z
}.

(** What one request reads from the clock and the random generator. *)
Record env := Env {
  now : Z;             (** [Date.now()] *)
  isoNow : string;     (** [new Date().toISOString()] *)
  randomHex : string   (** [crypto.randomBytes(n).toString('hex')] *)
}.

(** ** Responses and the accounts file *)

Inductive payload :=
  | Json (v : value)      (** [res.end(JSON.stringify(v))] *)
  | Plain (s : string).   (** [res.end(s)] *)

Record response := Response { status : Z; body : payload }.

(** What a handler does: at most one [writeJSON('accounts.json', _)] and
    one response. *)
Record outcome := Outcome { written : option (list obj); reply : response }.

(** The content of [accounts.json]: the array it holds, or [None] when
    there is no file or it does not parse. *)
Abbreviation file := (option (list obj)).

(** [readJSON('accounts.json')]: the parsed array, [null] on any failure. *)
Definition readJSON (f : file) : option (list obj) := f.

(** [writeJSON('accounts.json', accounts)]: the file that results when
    [fs.writeFileSync] returns.  When it throws, the response that the
    handler was about to send is not sent: see [deliver]. *)
Definition writeJSON (accounts : list obj) : file := Some accounts.

(** [readJSON('accounts.json') || []] *)
Definition load (f : file) : list obj := default [] (readJSON f).

(** The file after the handler has run. *)
Definition commit (f : file) (o : outcome) : file :=
  match written o with
  | Some accounts => writeJSON accounts
  | None => f
  end.

(** [res.writeHead(code).end(JSON.stringify({error: msg}))] *)
Definition error (code : Z) (msg : string) : response :=
  Response code (Json (VObj [("error", VStr msg)])).

Definition refuse (code : Z) (msg : string) : outcome :=
  Outcome None (error code msg).

(** The outcome of [getRequestData]: the promise resolves with the parsed
    body ([{}] for an empty one) or rejects when [JSON.parse] throws. *)
Inductive request_data :=
  | Resolved (body : value)
  | Rejected.

(** [getRequestData(req).then(k).catch(() => send r)]: a rejected promise
    and an exception thrown by [k] both end in the catch handler. *)
Definition then_catch (rq : request_data) (k : value → option outcome)
    (r : response) : outcome :=
  match rq with
  | Resolved body => default (Outcome None r) (k body)
  | Rejected => Outcome None r
  end.

(** The four properties a public view never has. *)
Definition sensitive : list string :=
  ["passwordHash"; "passwordSalt"; "resetTokenHash"; "resetTokenExpiry"].

Definition sanitizeAccountsForPublic (accounts : option (list obj)) : list obj :=
  omit sensitive <$> default [] accounts.

(** [accounts.find(a => a.k === x)], with the index of the element found:
    the handlers mutate that element of the array in place. *)
Definition find_by (k : string) (x : option value) (accounts : list obj)
    : option (nat * obj) :=
  list_find (λ a, strict_eq (get k a) x) accounts.

Section Server.
Context `{Runtime}.

(** [hashPassword]: [scryptSync] takes strings (or buffers, which JSON
    does not have) and throws a [TypeError] on anything else. *)
Definition hashPassword (password salt : option value) : option string :=
  match password, salt with
  | Some (VStr p), Some (VStr s) => Some (scrypt p s)
  | _, _ => None
  end.

(** [crypto.createHash(alg).update(x).digest('hex')]: [update] throws on
    a value that is not a string. *)
Definition digest (h : string → string) (x : option value) : option string :=
  match x with
  | Some (VStr s) => Some (h s)
  | _ => None
  end.

(** [t > x] for the number [t]: [x] is converted to a number, and the
    comparison with [NaN] is false. *)
Definition gt (t : Z) (x : option value) : bool :=
  match x with
  | None => false
  | Some VNull => bool_decide (0 < t)
  | Some (VBool b) => bool_decide ((if b then 1 else 0) < t)
  | Some (VNum n) => bool_decide (n < t)
  | Some v => match toNumber v with Some n => bool_decide (n < t) | None => false end
  end.

(** *** GET /api/accounts *)
Definition listAccounts (f : file) : response :=
  Response 200 (Json (VArr (VObj <$> sanitizeAccountsForPublic (Some (load f))))).

(** *** POST /api/accounts *)

(** The account object that the handler builds and pushes. *)
Definition new_account (e : env) (name email : option value) (role : value)
    (passwordHash : string) : obj :=
  literal
    [("id", Some (VStr ("acct_" +:+ pretty (now e)))); ("name", name);
     ("email", email); ("role", Some role);
     ("createdAt", Some (VStr (isoNow e)));
     ("passwordHash", Some (VStr passwordHash));
     ("passwordSalt", Some (VStr (randomHex e)));
     ("resetTokenHash", Some VNull); ("resetTokenExpiry", Some VNull)].

(** The body of the 201 response. *)
Definition created_view (acct : obj) : value :=
  VObj (literal
    [("id", get "id" acct); ("email", get "email" acct);
     ("name", get "name" acct); ("createdAt", get "createdAt" acct);
     ("role", get "role" acct)]).

Definition signup_then (e : env) (f : file) (body : value) : option outcome :=
  let b := or_empty body in
  let name := prop "name" b in
  let email := prop "email" b in
  let password := prop "password" b in
  let role := default (VStr "user") (prop "role" b) in
  if negb (truthy email) || negb (truthy password)
  then Some (refuse 400 "email and password required")
  else
    let accounts := load f in
    match find_by "email" email accounts with
    | Some _ => Some (refuse 409 "email exists")
    | None =>
        let salt := randomHex e in
        passwordHash ← hashPassword password (Some (VStr salt));
        let acct := new_account e name email role passwordHash in
        Some (Outcome (Some (accounts ++ [acct])%list)
                (Response 201 (Json (created_view acct))))
    end.

Definition signup (e : env) (f : file) (rq : request_data) : outcome :=
  then_catch rq (signup_then e f) (Response 400 (Plain "invalid body")).

(** *** POST /api/accounts/login *)

(** The account after the upgrade of a legacy credential: a fresh salt
    and the scrypt hash [h] of the password under it. *)
Definition upgraded (e : env) (h : string) (acct : obj) : obj :=
  set "passwordHash" (VStr h) (set "passwordSalt" (VStr (randomHex e)) acct).

Definition login_then (e : env) (f : file) (body : value) : option outcome :=
  let b := or_empty body in
  let email := prop "email" b in
  let password := prop "password" b in
  if negb (truthy email) || negb (truthy password)
  then Some (refuse 400 "email and password required")
  else
    let accounts := load f in
    match find_by "email" email accounts with
    | None => Some (refuse 401 "invalid credentials")
    | Some (i, acct) =>
        scryptHash ← hashPassword password (get "passwordSalt" acct);
        let '(authenticated, acct, w) :=
          if strict_eq (Some (VStr scryptHash)) (get "passwordHash" acct)
          then (true, acct, None)
          else
            (* try { ... } catch (e) { /* ignore */ } *)
            match digest md5 password with
            | None => (false, acct, None)
            | Some legacy =>
                if strict_eq (Some (VStr legacy)) (get "passwordHash" acct)
                then
                  match hashPassword password (Some (VStr (randomHex e))) with
                  | None =>
                      (true, set "passwordSalt" (VStr (randomHex e)) acct, None)
                  | Some h =>
                      let acct := upgraded e h acct in
                      (true, acct, Some (<[i:=acct]> accounts))
                  end
                else (false, acct, None)
            end in
        if authenticated
        then Some (Outcome w (Response 200 (Json (VObj (omit sensitive acct)))))
        else Some (refuse 401 "invalid credentials")
    end.

Definition login (e : env) (f : file) (rq : request_data) : outcome :=
  then_catch rq (login_then e f) (error 400 "invalid body").

(** *** GET /api/account?id=
    [id] is [q.get('id')]: a string, or [null] when the query has none. *)
Definition getById (f : file) (id : option string) : response :=
  match id with
  | None => error 400 "id required"
  | Some i =>
      if String.eqb i "" then error 400 "id required"
      else
        match find_by "id" (Some (VStr i)) (load f) with
        | None => error 404 "not found"
        | Some (_, acct) => Response 200 (Json (VObj (omit sensitive acct)))
        end
  end.

(** *** POST /api/accounts/update *)

(** [if (typeof x === 'string') acct.k = x] *)
Definition assign_if_string (k : string) (x : option value) (o : obj) : obj :=
  match x with
  | Some (VStr s) => set k (VStr s) o
  | _ => o
  end.

Definition update_then (f : file) (body : value) : option outcome :=
  let b := or_empty body in
  let id := prop "id" b in
  let name := prop "name" b in
  let description := prop "description" b in
  if negb (truthy id) then Some (refuse 400 "id required")
  else
    let accounts := load f in
    match find_by "id" id accounts with
    | None => Some (refuse 404 "not found")
    | Some (i, acct) =>
        let acct := assign_if_string "name" name acct in
        let acct := assign_if_string "description" description acct in
        Some (Outcome (Some (<[i:=acct]> accounts))
                (Response 200 (Json (VObj (literal
                   [("message", Some (VStr "updated")); ("id", get "id" acct);
                    ("name", get "name" acct);
                    ("description", get "description" acct)])))))
    end.

Definition update (f : file) (rq : request_data) : outcome :=
  then_catch rq (update_then f) (error 400 "invalid body").

(** *** POST /api/accounts/request-reset *)

(** The account with the hash of the token issued and its expiry, one
    hour after the clock reading. *)
Definition with_token (e : env) (acct : obj) : obj :=
  set "resetTokenExpiry" (VNum (now e + 1000 * 60 * 60))
    (set "resetTokenHash" (VStr (sha256 (randomHex e))) acct).

Definition requestReset_then (e : env) (f : file) (body : value) : option outcome :=
  let b := or_empty body in
  let email := prop "email" b in
  if negb (truthy email) then Some (refuse 400 "email required")
  else
    let accounts := load f in
    match find_by "email" email accounts with
    | None => Some (refuse 404 "not found")
    | Some (i, acct) =>
        let token := randomHex e in
        let acct := with_token e acct in
        Some (Outcome (Some (<[i:=acct]> accounts))
                (Response 200 (Json (VObj
                   [("message", VStr "reset token generated (demo)");
                    ("token", VStr token)]))))
    end.

Definition requestReset (e : env) (f : file) (rq : request_data) : outcome :=
  then_catch rq (requestReset_then e f) (error 400 "invalid body").

(** *** POST /api/accounts/reset *)

(** The account with its new credential and the reset token cleared. *)
Definition with_password (e : env) (h : string) (acct : obj) : obj :=
  set "resetTokenExpiry" VNull
    (set "resetTokenHash" VNull
       (set "passwordHash" (VStr h)
          (set "passwordSalt" (VStr (randomHex e)) acct))).

Definition completeReset_then (e : env) (f : file) (body : value) : option outcome :=
  let b := or_empty body in
  let email := prop "email" b in
  let token := prop "token" b in
  let newPassword := prop "newPassword" b in
  if negb (truthy email) || negb (truthy token) || negb (truthy newPassword)
  then Some (refuse 400 "email,token,newPassword required")
  else
    let accounts := load f in
    match find_by "email" email accounts with
    | None => Some (refuse 400 "no reset requested")
    | Some (i, acct) =>
        if negb (truthy (get "resetTokenHash" acct))
           || negb (truthy (get "resetTokenExpiry" acct))
        then Some (refuse 400 "no reset requested")
        else if gt (now e) (get "resetTokenExpiry" acct)
        then Some (refuse 400 "token expired")
        else
          tokenHash ← digest sha256 token;
          if negb (strict_eq (Some (VStr tokenHash)) (get "resetTokenHash" acct))
          then Some (refuse 400 "invalid token")
          else
            h ← hashPassword newPassword (Some (VStr (randomHex e)));
            let acct := with_password e h acct in
            Some (Outcome (Some (<[i:=acct]> accounts))
                    (Response 200 (Json (VObj
                       [("message", VStr "password updated")]))))
    end.

Definition completeReset (e : env) (f : file) (rq : request_data) : outcome :=
  then_catch rq (completeReset_then e f) (error 400 "invalid body").

(** *** /sse/updates: the event sent when [accounts.json] changes, as
    its name and its [data] payload. *)
Definition sse_accounts_event (data : list obj) : string * value :=
  ("accounts", VArr (VObj <$> sanitizeAccountsForPublic (Some data))).

(** ** Sequences of requests *)

Inductive request :=
  | Signup (rq : request_data)
  | Login (rq : request_data)
  | Update (rq : request_data)
  | RequestReset (rq : request_data)
  | CompleteReset (rq : request_data).

Definition handle (e : env) (f : file) (r : request) : outcome :=
  match r with
  | Signup rq => signup e f rq
  | Login rq => login e f rq
  | Update rq => update f rq
  | RequestReset rq => requestReset e f rq
  | CompleteReset rq => completeReset e f rq
  end.

Fixpoint run (f : file) (reqs : list (env * request)) : file :=
  match reqs with
  | [] => f
  | (e, r) :: reqs => run (commit f (handle e f r)) reqs
  end.

End Server.



(** ** Predicates of the specification *)

(** A public view: an object with none of the four credential and reset
    properties. *)
Definition public (o : obj) : Prop :=
  ∀ k, k ∈ sensitive → get k o = None.

(** A JSON payload shows public views only: an object is one, and an
    array holds nothing but such objects. *)
Definition public_value (v : value) : Prop :=
  match v with
  | VObj o => public o
  | VArr items => Forall (λ x, ∃ o, x = VObj o ∧ public o) items
  | _ => True
  end.

Definition public_body (r : response) : Prop :=
  match body r with
  | Json v => public_value v
  | Plain _ => True
  end.

(** The property [k] of a JSON response body. *)
Definition field (k : string) (r : response) : option value :=
  match body r with
  | Json v => prop k v
  | Plain _ => None
  end.

(** [x == null]: [null], or [undefined] for a property the object lacks. *)
Definition nullish (x : option value) : bool :=
  match x with
  | None | Some VNull => true
  | Some _ => false
  end.

(** The reset token hash and its expiry are both null or both set. *)
Definition paired (a : obj) : Prop :=
  nullish (get "resetTokenHash" a) = nullish (get "resetTokenExpiry" a).

(** The ids of the stored accounts. *)
Definition ids (accounts : list obj) : list (option value) :=
  get "id" <$> accounts.

(** The id that [signup] gives at clock reading [t]. *)
Definition acct_id (t : Z) : string := "acct_" +:+ pretty t.

(** ** Scenarios *)

(** A request body with an email and a password. *)
Definition credentials (email password : string) : value :=
  VObj [("email", VStr email); ("password", VStr password)].

(** An account of the older scheme: the unsalted md5 digest of its
    password and no salt. *)
Definition legacy_account `{Runtime} (email password : string) : obj :=
  [("id", VStr "acct_1"); ("email", VStr email);
   ("passwordHash", VStr (md5 password))].

(** The same account with an (empty) salt property. *)
Definition salted_legacy_account `{Runtime} (email password : string) : obj :=
  legacy_account email password ++ [("passwordSalt", VStr "")].

Definition noon : env := Env 1700000000000 "2023-11-14T22:13:20.000Z" "00ff".
Definition later : env := Env 1700000005000 "2023-11-14T22:13:25.000Z" "a1b2".

(** A runtime to run the model on concrete requests: the digests are
    replaced by injective string builders. *)
Definition demo : Runtime := {|
  scrypt p s := "scrypt(" +:+ p +:+ "," +:+ s +:+ ")";
  md5 s := "md5(" +:+ s +:+ ")";
  sha256 s := "sha256(" +:+ s +:+ ")";
  toNumber _ := None
|}.

(** The account that [POST /api/accounts] stores for [a@x.com] with the
    password [p1] at [noon], under the [demo] runtime. *)
Definition alice : obj :=
  [("id", VStr "acct_1700000000000"); ("email", VStr "a@x.com");
   ("role", VStr "user"); ("createdAt", VStr "2023-11-14T22:13:20.000Z");
   ("passwordHash", VStr "scrypt(p1,00ff)"); ("passwordSalt", VStr "00ff");
   ("resetTokenHash", VNull); ("resetTokenExpiry", VNull)].

(** The same account with the reset token [00ff] issued at [noon]. *)
Definition alice_pending : obj :=
  [("id", VStr "acct_1700000000000"); ("email", VStr "a@x.com");
   ("role", VStr "user"); ("createdAt", VStr "2023-11-14T22:13:20.000Z");
   ("passwordHash", VStr "scrypt(p1,00ff)"); ("passwordSalt", VStr "00ff");
   ("resetTokenHash", VStr "sha256(00ff)");
   ("resetTokenExpiry", VNum 1700003600000)].

(** A reset request body. *)
Definition reset_body (email token newPassword : string) : value :=
  VObj [("email", VStr email); ("token", VStr token);
        ("newPassword", VStr newPassword)].

(** A clock reading past the expiry of the token issued at [noon]. *)
Definition too_late : env := Env 1700003600001 "2023-11-14T23:13:20.001Z" "c3d4".

(** ** Request bodies, followers and routes *)

(** [getRequestData]: the chunks are appended; an empty body resolves
    with [{}] without being parsed, any other body with what [JSON.parse]
    makes of it.  [parse] stands for [JSON.parse], [None] for its
    [SyntaxError]. *)
Definition getRequestData (parse : string → option value)
    (chunks : list string) : request_data :=
  let body := foldl (λ body chunk, body +:+ chunk) "" chunks in
  if String.eqb body "" then Resolved (VObj [])
  else match parse body with
       | Some v => Resolved v
       | None => Rejected
       end.

(** [x || null] *)
Definition or_null (x : option value) : value :=
  if truthy x then default VNull x else VNull.

(** [followers.filter(f => f.accountId === accountId)] *)
Definition followers_of (accountId : option value) (followers : list obj)
    : list obj :=
  filter (λ f, strict_eq (get "accountId" f) accountId) followers.

Section Followers.
Context `{Runtime}.

(** [n < x] for the number [n]: [x] is converted to a number, and the
    comparison with [NaN] is false. *)
Definition lt (n : Z) (x : option value) : bool :=
  match x with
  | None => false
  | Some VNull => bool_decide (n < 0)
  | Some (VBool b) => bool_decide (n < (if b then 1 else 0))
  | Some (VNum m) => bool_decide (n < m)
  | Some v => match toNumber v with Some m => bool_decide (n < m) | None => false end
  end.

(** *** GET /api/followers, on the content of [followers.json] *)
Definition listFollowers (ff : file) : response :=
  Response 200 (Json (VArr (VObj <$> load ff))).

(** *** POST /api/followers; [written] is the write of [followers.json] *)
Definition new_follower (e : env) (accountId email name : option value) : obj :=
  literal
    [("id", Some (VStr ("foll_" +:+ pretty (now e)))); ("accountId", accountId);
     ("email", email); ("name", Some (or_null name));
     ("subscribedAt", Some (VStr (isoNow e)))].

Definition follow_then (e : env) (ff : file) (body : value) : option outcome :=
  let b := or_empty body in
  let accountId := prop "accountId" b in
  let email := prop "email" b in
  let name := prop "name" b in
  if negb (truthy accountId) || negb (truthy email)
  then Some (refuse 400 "accountId and email required")
  else
    let followers := load ff in
    let entry := new_follower e accountId email name in
    Some (Outcome (Some (followers ++ [entry])%list)
            (Response 201 (Json (VObj entry)))).

Definition follow (e : env) (ff : file) (rq : request_data) : outcome :=
  then_catch rq (follow_then e ff) (error 400 "invalid body").

(** *** POST /api/notify-followers *)

(** [accountFollowers.map(f => f.email)] as [JSON.stringify] shows it:
    [undefined] in an array is written [null]. *)
Definition emails_of (followers : list obj) : list value :=
  (λ f, default VNull (get "email" f)) <$> followers.

Definition notifyFollowers_then (ff : file) (body : value) : option outcome :=
  let b := or_empty body in
  let accountId := prop "accountId" b in
  let threshold := prop "threshold" b in
  let message := prop "message" b in
  if negb (truthy accountId) || negb (truthy threshold)
  then Some (refuse 400 "accountId and threshold required")
  else
    let followers := load ff in
    let accountFollowers := followers_of accountId followers in
    let count := Z.of_nat (length accountFollowers) in
    if lt count threshold
    then Some (Outcome None (Response 200 (Json (VObj (literal
           [("notified", Some (VBool false)); ("count", Some (VNum count));
            ("needed", threshold)])))))
    else Some (Outcome None (Response 200 (Json (VObj (literal
           [("notified", Some (VBool true)); ("count", Some (VNum count));
            ("emails", Some (VArr (emails_of accountFollowers)));
            ("message", Some (or_null message))]))))).

Definition notifyFollowers (ff : file) (rq : request_data) : outcome :=
  then_catch rq (notifyFollowers_then ff) (error 400 "invalid body").

End Followers.

(** *** The dispatch of the request handler *)

(** [req.url.split('?')[0]] *)
Fixpoint before_query (url : string) : string :=
  match url with
  | EmptyString => EmptyString
  | String c rest =>
      if String.eqb (String c "") "?" then "" else String c (before_query rest)
  end.

(** Where a request ends. *)
Inductive route :=
  | Preflight            (** 204, no body *)
  | ListAccounts
  | CreateAccount
  | LoginAccount
  | GetAccount
  | UpdateAccount
  | ListMedia
  | UploadMedia
  | ListFollowers
  | AddFollower
  | Unanswered           (** the handler returns and writes no response *)
  | NotifyFollowers
  | RequestReset_
  | CompleteReset_
  | Updates              (** the event stream *)
  | ServeFile
  | ApiNotFound          (** 404 [{error:'not found'}] *)
  | Index                (** [index.html] *)
  | ServerError.         (** 500 [{error:'server error'}] *)

(** The chain of tests of the request handler, in its order.  [is_file]
    tells whether the path names a file under the root; it is [None] when
    [decodeURIComponent] throws on the path, which the outer [catch]
    answers. *)
Definition route_of (method url : string) (is_file : option bool) : route :=
  let url := before_query url in
  if String.eqb method "OPTIONS" then Preflight
  else if String.eqb url "/api/accounts" && String.eqb method "GET"
  then ListAccounts
  else if String.eqb url "/api/accounts" && String.eqb method "POST"
  then CreateAccount
  else if String.eqb url "/api/accounts/login" && String.eqb method "POST"
  then LoginAccount
  else if String.prefix "/api/account" url && String.eqb method "GET"
  then GetAccount
  else if String.eqb url "/api/accounts/update" && String.eqb method "POST"
  then UpdateAccount
  else if String.eqb url "/api/media" then ListMedia
  else if String.eqb url "/api/media/upload" && String.eqb method "POST"
  then UploadMedia
  else if String.eqb url "/api/followers"
  then (if String.eqb method "GET" then ListFollowers
        else if String.eqb method "POST" then AddFollower
        else Unanswered)
  else if String.eqb url "/api/notify-followers" && String.eqb method "POST"
  then NotifyFollowers
  else if String.eqb url "/api/accounts/request-reset" && String.eqb method "POST"
  then RequestReset_
  else if String.eqb url "/api/accounts/reset" && String.eqb method "POST"
  then CompleteReset_
  else if String.eqb url "/sse/updates" then Updates
  else
    match is_file with
    | None => ServerError
    | Some true => ServeFile
    | Some false =>
        if String.prefix "/api/" url then ApiNotFound else Index
    end.

(** ** Further predicates *)

(** No two accounts have the same string as email. *)
Definition unique_emails (accounts : list obj) : Prop :=
  ∀ i j a b s,
    accounts !! i = Some a → accounts !! j = Some b →
    get "email" a = Some (VStr s) → get "email" b = Some (VStr s) → i = j.

(** A property of the request that is a string, or that the request does
    not have. *)
Definition string_or_absent (x : option value) : Prop :=
  match x with
  | None | Some (VStr _) => True
  | Some _ => False
  end.

(** The response of the [catch] that ends the promise of a handler. *)
Definition catch_reply (r : request) : response :=
  match r with
  | Signup _ => Response 400 (Plain "invalid body")
  | _ => error 400 "invalid body"
  end.

(** The response that the client gets for the outcome [o] of the request
    [r], [write_throws] telling whether [fs.writeFileSync] throws when it
    is called.  The write of login is inside its [try] block, whose
    [catch] ignores the exception, and login goes on to send its response;
    in the other handlers the exception ends in the [catch] of the
    promise. *)
Definition deliver (write_throws : bool) (r : request) (o : outcome) : response :=
  match written o, r with
  | None, _ => reply o
  | Some _, Login _ => reply o
  | Some _, _ => if write_throws then catch_reply r else reply o
  end.

(** An account with a salt and the scrypt hash of its password. *)
Definition strong_account `{Runtime} (email password salt : string) : obj :=
  [("id", VStr "acct_2"); ("email", VStr email);
   ("passwordHash", VStr (scrypt password salt)); ("passwordSalt", VStr salt);
   ("resetTokenHash", VNull); ("resetTokenExpiry", VNull)].

(** A request body whose email is not a string but an array. *)
Definition array_email_credentials (email password : string) : value :=
  VObj [("email", VArr [VStr email]); ("password", VStr password)].

(** A request body whose password is a number. *)
Definition numeric_password (email : string) (password : Z) : value :=
  VObj [("email", VStr email); ("password", VNum password)].

(** [a'] has the value of [a] for every property outside [ks]. *)
Definition same_but (ks : list string) (a a' : obj) : Prop :=
  ∀ k, k ∉ ks → get k a' = get k a.

(** Every account of [l] is still at its index in [l'], changed in the
    properties [ks] at most. *)
Definition kept_but (ks : list string) (l l' : list obj) : Prop :=
  ∀ j a, l !! j = Some a → ∃ a', l' !! j = Some a' ∧ same_but ks a a'.

(** The properties of stored accounts that a request may assign. *)
Definition touched (r : request) : list string :=
  match r with
  | Signup _ => []
  | Login _ => ["passwordHash"; "passwordSalt"]
  | Update _ => ["name"; "description"]
  | RequestReset _ => ["resetTokenHash"; "resetTokenExpiry"]
  | CompleteReset _ =>
      ["passwordSalt"; "passwordHash"; "resetTokenHash"; "resetTokenExpiry"]
  end.

(** The properties that no request assigns once the account is stored. *)
Definition mutable : list string :=
  ["name"; "description"; "passwordHash"; "passwordSalt";
   "resetTokenHash"; "resetTokenExpiry"].

(** A body that is not a JSON object. *)
Definition not_object (v : value) : Prop :=
  match v with
  | VObj _ => False
  | _ => True
  end.

(** A follower of [alice], and a request to follow her. *)
Definition bob_follows : obj :=
  [("id", VStr "foll_1"); ("accountId", VStr "acct_1700000000000");
   ("email", VStr "b@x.com"); ("name", VNull);
   ("subscribedAt", VStr "2023-11-14T22:13:20.000Z")].

Definition follow_body (accountId email : string) : value :=
  VObj [("accountId", VStr accountId); ("email", VStr email)].

Definition notify_body (accountId : string) (threshold : Z) : value :=
  VObj [("accountId", VStr accountId); ("threshold", VNum threshold)].

Definition update_body (id name description : string) : value :=
  VObj [("id", VStr id); ("name", VStr name); ("description", VStr description)].

(** ** Properties of objects *)

Lemma get_set_eq k v o : get k (set k v o) = Some v.
Proof.
  induction o as [|[k' v'] o IH]; simpl.
  - by rewrite decide_True.
  - destruct (decide (k' = k)) as [->|Hne]; simpl.
    + by rewrite decide_True.
    + by rewrite decide_False.
Qed.

Lemma get_set_ne k k' v o : k ≠ k' → get k' (set k v o) = get k' o.
Proof.
  intros Hne. induction o as [|[k0 v0] o IH]; simpl.
  - by rewrite decide_False.
  - destruct (decide (k0 = k)) as [->|Hk]; simpl.
    + by rewrite !decide_False.
    + by rewrite IH.
Qed.

Lemma get_omit_elem ks k o : k ∈ ks → get k (omit ks o) = None.
Proof.
  intros Hk. unfold omit. induction o as [|[k' v'] o IH]; [done|].
  rewrite filter_cons. case_decide as Hin; simpl in *; [|done].
  rewrite decide_False; [done|]. by intros ->.
Qed.

Lemma get_omit_not_elem ks k o : k ∉ ks → get k (omit ks o) = get k o.
Proof.
  intros Hk. unfold omit. induction o as [|[k' v'] o IH]; [done|].
  rewrite filter_cons. case_decide as Hin; simpl in *.
  - by rewrite IH.
  - rewrite decide_False; [done|]. by intros ->.
Qed.

Lemma get_literal_not_elem k fields :
  k ∉ fields.*1 → get k (literal fields) = None.
Proof.
  unfold literal. induction fields as [|[k' [v|]] fields IH]; simpl; [done|..].
  - rewrite not_elem_of_cons. intros [Hne Hk].
    rewrite decide_False by done. by apply IH.
  - rewrite not_elem_of_cons. intros [_ Hk]. by apply IH.
Qed.

(** Falsy bodies are not objects: [body || {}] has the properties of
    [body]. *)
Lemma prop_or_empty k body : prop k (or_empty body) = prop k body.
Proof. unfold or_empty. by destruct body; simpl; repeat case_match. Qed.

Lemma strict_eq_str a b : strict_eq (Some (VStr a)) (Some (VStr b)) = true ↔ a = b.
Proof. simpl. apply String.eqb_eq. Qed.

Lemma strict_eq_str_ne a b : a ≠ b → strict_eq (Some (VStr a)) (Some (VStr b)) = false.
Proof. simpl. apply String.eqb_neq. Qed.

Lemma truthy_str s : truthy (Some (VStr s)) = true ↔ s ≠ "".
Proof. simpl. rewrite negb_true_iff. apply String.eqb_neq. Qed.

(** ** Properties of [find] *)

Lemma find_by_Some k x accounts i a :
  find_by k x accounts = Some (i, a) →
  accounts !! i = Some a ∧ strict_eq (get k a) x = true.
Proof.
  unfold find_by. intros (Hi & HP & _)%list_find_Some.
  split; [done|]. by apply Is_true_true.
Qed.

(** The element found keeps its place when it is replaced by an object
    that still matches: the next [find] gets the replacement. *)
Lemma find_by_insert k x accounts i a a' :
  find_by k x accounts = Some (i, a) →
  strict_eq (get k a') x = true →
  find_by k x (<[i:=a']> accounts) = Some (i, a').
Proof.
  unfold find_by. intros (Hi & HP & Hleast)%list_find_Some Ha'.
  apply list_find_insert_Some. right; left.
  split_and!; [done|done|by eapply lookup_lt_Some|by apply Is_true_true|].
  intros j z Hj Hlt. by eapply Hleast.
Qed.

(** [push] after an unsuccessful [find]: the next [find] for a value that
    the pushed object matches gets the pushed object. *)
Lemma find_by_snoc k x accounts a :
  find_by k x accounts = None →
  strict_eq (get k a) x = true →
  find_by k x (accounts ++ [a]) = Some (length accounts, a).
Proof.
  unfold find_by. intros Hnone Ha.
  rewrite list_find_app_r by done. simpl.
  rewrite decide_True by (by apply Is_true_true). done.
Qed.

(** ** Public views *)

Lemma not_sensitive_dec k : bool_decide (k ∈ sensitive) = false → k ∉ sensitive.
Proof. apply bool_decide_eq_false_1. Qed.

Lemma public_omit o : public (omit sensitive o).
Proof. intros k Hk. by apply get_omit_elem. Qed.

Lemma public_literal fields :
  Forall (λ k, k ∉ sensitive) fields.*1 → public (literal fields).
Proof.
  intros Hall k Hk. apply get_literal_not_elem.
  intros Hin. by eapply Forall_forall in Hall.
Qed.

Lemma public_error code msg : public_body (error code msg).
Proof.
  intros k Hk. simpl. rewrite decide_False; [done|].
  intros <-. by apply (not_sensitive_dec "error").
Qed.

Lemma public_sanitized accounts :
  public_value (VArr (VObj <$> sanitizeAccountsForPublic accounts)).
Proof.
  simpl. apply Forall_fmap, Forall_fmap, Forall_forall. intros a _.
  simpl. eexists. split; [done|]. apply public_omit.
Qed.

Ltac not_sensitive :=
  repeat constructor; by apply not_sensitive_dec.

Section Views.
Context `{Runtime}.

Lemma public_signup e f rq : public_body (reply (signup e f rq)).
Proof.
  unfold signup, then_catch. destruct rq as [b|]; [|done].
  unfold signup_then.
  destruct (negb _ || negb _); [apply public_error|].
  destruct (find_by _ _ _) as [?|]; [apply public_error|].
  destruct (hashPassword _ _); [|done].
  apply public_literal. not_sensitive.
Qed.

Lemma public_login e f rq : public_body (reply (login e f rq)).
Proof.
  unfold login, then_catch. destruct rq as [b|]; [|apply public_error].
  unfold login_then.
  destruct (negb _ || negb _); [apply public_error|].
  destruct (find_by _ _ _) as [[i acct]|]; [|apply public_error].
  destruct (hashPassword _ (get _ _)); [|apply public_error].
  cbn [mbind option_bind default].
  destruct (strict_eq _ _); [apply public_omit|].
  destruct (digest _ _); [|apply public_error].
  destruct (strict_eq _ _); [|apply public_error].
  destruct (hashPassword _ _); apply public_omit.
Qed.

Lemma public_getById f id : public_body (getById f id).
Proof.
  unfold getById. destruct id as [i|]; [|apply public_error].
  destruct (String.eqb _ _); [apply public_error|].
  destruct (find_by _ _ _) as [[? acct]|]; [apply public_omit|apply public_error].
Qed.

(** C1. The responses of list accounts, signup, login and get-by-id and
    the payload of the [accounts] event contain none of [passwordHash],
    [passwordSalt], [resetTokenHash], [resetTokenExpiry], whatever the
    accounts file holds and whatever the request is. *)
Theorem public_views_hide_credentials e f rq id data :
  public_body (listAccounts f)
  ∧ public_body (reply (signup e f rq))
  ∧ public_body (reply (login e f rq))
  ∧ public_body (getById f id)
  ∧ public_value (sse_accounts_event data).2.
Proof.
  split_and!.
  - apply public_sanitized.
  - apply public_signup.
  - apply public_login.
  - apply public_getById.
  - apply public_sanitized.
Qed.

End Views.

(** ** Signup, then login *)

Lemma truthy_str_true s : s ≠ "" → truthy (Some (VStr s)) = true.
Proof. apply truthy_str. Qed.

Section Credentials.
Context `{Runtime}.

(** The properties of the account that signup stores. *)
Lemma new_account_get e name email role h :
  let acct := new_account e name email role h in
  get "id" acct = Some (VStr (acct_id (now e)))
  ∧ get "email" acct = email
  ∧ get "passwordHash" acct = Some (VStr h)
  ∧ get "passwordSalt" acct = Some (VStr (randomHex e))
  ∧ get "resetTokenHash" acct = Some VNull
  ∧ get "resetTokenExpiry" acct = Some VNull.
Proof. by destruct name, email. Qed.

(** A 201 response means that the handler went all the way. *)
Lemma signup_created e f rq :
  status (reply (signup e f rq)) = 201 →
  ∃ body h,
    let email := prop "email" body in
    let password := prop "password" body in
    let acct := new_account e (prop "name" body) email
                  (default (VStr "user") (prop "role" body)) h in
    rq = Resolved body
    ∧ truthy email = true ∧ truthy password = true
    ∧ find_by "email" email (load f) = None
    ∧ hashPassword password (Some (VStr (randomHex e))) = Some h
    ∧ signup e f rq =
        Outcome (Some (load f ++ [acct])%list)
          (Response 201 (Json (created_view acct))).
Proof.
  unfold signup, then_catch. destruct rq as [body|]; [|done].
  unfold signup_then. rewrite !prop_or_empty.
  destruct (truthy (prop "email" body)) eqn:Hemail; [|done].
  destruct (truthy (prop "password" body)) eqn:Hpassword; [|done].
  cbn [negb orb].
  destruct (find_by _ _ _) as [?|] eqn:Hfind; [done|].
  destruct (hashPassword _ _) as [h|] eqn:Hhash; [|done].
  intros _. by exists body, h.
Qed.

(** Login of an account whose stored hash is the scrypt hash of the
    password under the stored salt: no write, and the public view. *)
Lemma login_strong e f body em pw i acct salt :
  prop "email" body = Some (VStr em) → em ≠ "" →
  prop "password" body = Some (VStr pw) → pw ≠ "" →
  find_by "email" (Some (VStr em)) (load f) = Some (i, acct) →
  get "passwordSalt" acct = Some (VStr salt) →
  get "passwordHash" acct = Some (VStr (scrypt pw salt)) →
  login e f (Resolved body) =
    Outcome None (Response 200 (Json (VObj (omit sensitive acct)))).
Proof.
  intros Hemail Hem Hpassword Hpw Hfind Hsalt Hhash.
  unfold login, then_catch, login_then.
  rewrite !prop_or_empty, Hemail, Hpassword, !truthy_str_true by done.
  cbn [negb orb]. rewrite Hfind, Hsalt. cbn [hashPassword mbind option_bind].
  rewrite Hhash. by rewrite (proj2 (strict_eq_str _ _)).
Qed.

(** C2, for an email that is a string.  When signup succeeds for the
    email and a password, a login with the same email and password on the
    accounts file that signup wrote answers 200 and writes nothing; its
    body is a public view, the account that signup stored without its four
    sensitive properties, and the id of the view is the id that signup
    returned.  The same holds on every later accounts file in which the
    account that signup stored, unchanged, is still the one found for the
    email. *)
Theorem signup_then_login e1 e2 f body1 body2 em pw :
  prop "email" body1 = Some (VStr em) →
  prop "password" body1 = Some (VStr pw) →
  prop "email" body2 = Some (VStr em) →
  prop "password" body2 = Some (VStr pw) →
  status (reply (signup e1 f (Resolved body1))) = 201 →
  let created := signup e1 f (Resolved body1) in
  let logged := login e2 (commit f created) (Resolved body2) in
  status (reply logged) = 200
  ∧ written logged = None
  ∧ (∃ view, body (reply logged) = Json (VObj view) ∧ public view)
  ∧ is_Some (field "id" (reply created))
  ∧ field "id" (reply logged) = field "id" (reply created)
  ∧ ∃ acct,
      written created = Some (load f ++ [acct])%list
      ∧ public (omit sensitive acct)
      ∧ ∀ f' j,
          find_by "email" (Some (VStr em)) (load f') = Some (j, acct) →
          login e2 f' (Resolved body2)
          = Outcome None (Response 200 (Json (VObj (omit sensitive acct))))
          ∧ field "id" (reply (login e2 f' (Resolved body2)))
            = field "id" (reply created).
Proof.
  intros Hemail1 Hpassword1 Hemail2 Hpassword2 Hcreated.
  destruct (signup_created _ _ _ Hcreated)
    as (b0 & h & Hbody & Hem & Hpw & Hfind & Hhash & ->).
  injection Hbody as <-. rewrite Hemail1 in *. rewrite Hpassword1 in *.
  apply truthy_str in Hem, Hpw. injection Hhash as <-.
  pose proof (new_account_get e1 (prop "name" body1) (Some (VStr em))
                (default (VStr "user") (prop "role" body1))
                (scrypt pw (randomHex e1))) as Hacct.
  cbn zeta in Hacct. destruct Hacct as (Hid & Hmail & Hh & Hs & _).
  set (acct := new_account _ _ _ _ _) in *.
  assert (∀ f' j,
    find_by "email" (Some (VStr em)) (load f') = Some (j, acct) →
    login e2 f' (Resolved body2)
    = Outcome None (Response 200 (Json (VObj (omit sensitive acct))))
    ∧ field "id" (reply (login e2 f' (Resolved body2)))
      = field "id" (Response 201 (Json (created_view acct)))) as Hlater.
  { intros f' j Hfind'. erewrite login_strong by done.
    split; [done|].
    unfold field, created_view. cbn [reply body prop].
    rewrite get_omit_not_elem by by apply not_sensitive_dec.
    by rewrite Hid. }
  cbn zeta. cbn [reply written].
  destruct (Hlater (commit f (Outcome (Some (load f ++ [acct])%list)
                      (Response 201 (Json (created_view acct)))))
              (length (load f))) as (Hlogged & Hsame).
  { unfold commit, writeJSON. cbn [written load default readJSON].
    apply find_by_snoc; [done|]. rewrite Hmail. by apply strict_eq_str. }
  rewrite Hlogged in *. cbn [reply status written body].
  split_and!; [done|done| |  |done|].
  - exists (omit sensitive acct). split; [done|apply public_omit].
  - unfold field, created_view. cbn [reply body prop]. by rewrite Hid.
  - exists acct. split_and!; [done|apply public_omit|done].
Qed.

(** *** Login failures *)

Lemma strict_eq_str_false h x :
  strict_eq (Some (VStr h)) x = false ↔ x ≠ Some (VStr h).
Proof.
  destruct x as [[]|]; simpl; try (split; [done|naive_solver]).
  rewrite String.eqb_neq. naive_solver.
Qed.

Lemma login_no_account e f body :
  truthy (prop "email" body) = true →
  truthy (prop "password" body) = true →
  find_by "email" (prop "email" body) (load f) = None →
  login e f (Resolved body) = refuse 401 "invalid credentials".
Proof.
  intros Hemail Hpassword Hfind. unfold login, then_catch, login_then.
  rewrite !prop_or_empty, Hemail, Hpassword. cbn [negb orb].
  by rewrite Hfind.
Qed.

Lemma login_mismatch e f body pw i acct salt :
  truthy (prop "email" body) = true →
  prop "password" body = Some (VStr pw) → pw ≠ "" →
  find_by "email" (prop "email" body) (load f) = Some (i, acct) →
  get "passwordSalt" acct = Some (VStr salt) →
  get "passwordHash" acct ≠ Some (VStr (scrypt pw salt)) →
  get "passwordHash" acct ≠ Some (VStr (md5 pw)) →
  login e f (Resolved body) = refuse 401 "invalid credentials".
Proof.
  intros Hemail Hpassword Hpw Hfind Hsalt Hstrong Hlegacy.
  unfold login, then_catch, login_then.
  rewrite !prop_or_empty, Hemail, Hpassword, truthy_str_true by done.
  cbn [negb orb]. rewrite Hfind, Hsalt.
  cbn [hashPassword digest mbind option_bind].
  by rewrite !(proj2 (strict_eq_str_false _ _)).
Qed.

(** A login request with both fields present gets the same answer, 401
    [{error:'invalid credentials'}] and no write, when no account has the
    email and when an account has it, its salt and the password are
    strings, and the password matches neither the scrypt hash nor the
    legacy digest. *)
Theorem login_failures_uniform e1 e2 f1 f2 body1 body2 pw i acct salt :
  truthy (prop "email" body1) = true →
  truthy (prop "password" body1) = true →
  find_by "email" (prop "email" body1) (load f1) = None →
  truthy (prop "email" body2) = true →
  prop "password" body2 = Some (VStr pw) → pw ≠ "" →
  find_by "email" (prop "email" body2) (load f2) = Some (i, acct) →
  get "passwordSalt" acct = Some (VStr salt) →
  get "passwordHash" acct ≠ Some (VStr (scrypt pw salt)) →
  get "passwordHash" acct ≠ Some (VStr (md5 pw)) →
  login e1 f1 (Resolved body1) = refuse 401 "invalid credentials"
  ∧ login e2 f2 (Resolved body2) = login e1 f1 (Resolved body1).
Proof.
  intros. erewrite login_no_account, login_mismatch by done. done.
Qed.

(** *** Legacy credentials *)

Lemma login_legacy e f body em pw i acct salt :
  prop "email" body = Some (VStr em) → em ≠ "" →
  prop "password" body = Some (VStr pw) → pw ≠ "" →
  find_by "email" (Some (VStr em)) (load f) = Some (i, acct) →
  get "passwordSalt" acct = Some (VStr salt) →
  get "passwordHash" acct = Some (VStr (md5 pw)) →
  scrypt pw salt ≠ md5 pw →
  let acct' := upgraded e (scrypt pw (randomHex e)) acct in
  login e f (Resolved body) =
    Outcome (Some (<[i:=acct']> (load f)))
      (Response 200 (Json (VObj (omit sensitive acct')))).
Proof.
  intros Hemail Hem Hpassword Hpw Hfind Hsalt Hhash Hne.
  unfold login, then_catch, login_then.
  rewrite !prop_or_empty, Hemail, Hpassword, !truthy_str_true by done.
  cbn [negb orb]. rewrite Hfind, Hsalt.
  cbn [hashPassword digest mbind option_bind]. rewrite Hhash.
  rewrite strict_eq_str_ne by done.
  by rewrite (proj2 (strict_eq_str _ _)).
Qed.

Lemma upgraded_get e h acct :
  get "email" (upgraded e h acct) = get "email" acct
  ∧ get "passwordSalt" (upgraded e h acct) = Some (VStr (randomHex e))
  ∧ get "passwordHash" (upgraded e h acct) = Some (VStr h).
Proof.
  unfold upgraded. split_and!.
  - by rewrite !get_set_ne.
  - by rewrite get_set_ne, get_set_eq by done.
  - by rewrite get_set_eq.
Qed.

(** A legacy account that has a salt property logs in with its password,
    the handler writes the upgraded credential with that login, and the
    next login compares the scrypt hash only and writes nothing. *)
Theorem legacy_login_upgrades_once e1 e2 f body em pw i acct salt :
  prop "email" body = Some (VStr em) → em ≠ "" →
  prop "password" body = Some (VStr pw) → pw ≠ "" →
  find_by "email" (Some (VStr em)) (load f) = Some (i, acct) →
  get "passwordSalt" acct = Some (VStr salt) →
  get "passwordHash" acct = Some (VStr (md5 pw)) →
  scrypt pw salt ≠ md5 pw →
  let acct' := upgraded e1 (scrypt pw (randomHex e1)) acct in
  let first := login e1 f (Resolved body) in
  let second := login e2 (commit f first) (Resolved body) in
  status (reply first) = 200
  ∧ written first = Some (<[i:=acct']> (load f))
  ∧ get "passwordHash" acct' = Some (VStr (scrypt pw (randomHex e1)))
  ∧ get "passwordSalt" acct' = Some (VStr (randomHex e1))
  ∧ status (reply second) = 200
  ∧ written second = None
  ∧ reply second = reply first.
Proof.
  intros Hemail Hem Hpassword Hpw Hfind Hsalt Hhash Hne.
  cbn zeta. erewrite login_legacy by done. cbn zeta.
  unfold commit. cbn [written reply status].
  destruct (upgraded_get e1 (scrypt pw (randomHex e1)) acct)
    as (Hmail' & Hsalt' & Hhash').
  erewrite login_strong; [|done|done|done|done| |done|done]; last first.
  { cbn [load default readJSON]. eapply find_by_insert; [done|].
    rewrite Hmail'. by apply find_by_Some in Hfind as [_ ?]. }
  done.
Qed.

(** C3 fails on a legacy account that has no salt: [hashPassword] is
    called with [acct.passwordSalt] before the legacy digest is tried,
    [scryptSync] throws on [undefined], and the handler answers 400 and
    upgrades nothing, although the password is the right one. *)
Theorem legacy_login_without_salt e :
  login e (Some [legacy_account "a@x.com" "p1"])
    (Resolved (credentials "a@x.com" "p1"))
  = refuse 400 "invalid body".
Proof. reflexivity. Qed.

(** C4 fails where [hashPassword] throws.  With a wrong password, a login
    for the email of a legacy account that has no salt is answered 400
    [{error:'invalid body'}], and a login for an email that no account has
    401 [{error:'invalid credentials'}]; the same two answers are given to
    a password that is a number, for the email of an account with a salt
    and for an email that no account has.  The response tells whether the
    email is that of an account. *)
Theorem login_failure_reveals_account e :
  let legacy := Some [legacy_account "a@x.com" "p1"] in
  let strong := Some [strong_account "a@x.com" "p1" "00ff"] in
  login e legacy (Resolved (credentials "a@x.com" "wrong"))
  = refuse 400 "invalid body"
  ∧ login e legacy (Resolved (credentials "nobody@x.com" "wrong"))
    = refuse 401 "invalid credentials"
  ∧ login e strong (Resolved (numeric_password "a@x.com" 12345))
    = refuse 400 "invalid body"
  ∧ login e strong (Resolved (numeric_password "nobody@x.com" 12345))
    = refuse 401 "invalid credentials".
Proof. by split_and!. Qed.

End Credentials.

(** ** Password reset *)

Section Reset.
Context `{Runtime}.

Lemma with_token_get e acct :
  get "email" (with_token e acct) = get "email" acct
  ∧ get "resetTokenHash" (with_token e acct)
    = Some (VStr (sha256 (randomHex e)))
  ∧ get "resetTokenExpiry" (with_token e acct)
    = Some (VNum (now e + 1000 * 60 * 60)).
Proof.
  unfold with_token. split_and!.
  - by rewrite !get_set_ne.
  - by rewrite get_set_ne, get_set_eq by done.
  - by rewrite get_set_eq.
Qed.

Lemma with_password_get e h acct :
  get "email" (with_password e h acct) = get "email" acct
  ∧ get "passwordSalt" (with_password e h acct) = Some (VStr (randomHex e))
  ∧ get "passwordHash" (with_password e h acct) = Some (VStr h)
  ∧ get "resetTokenHash" (with_password e h acct) = Some VNull
  ∧ get "resetTokenExpiry" (with_password e h acct) = Some VNull.
Proof.
  unfold with_password. split_and!.
  - by rewrite !get_set_ne.
  - by rewrite !get_set_ne, get_set_eq by done.
  - by rewrite !get_set_ne, get_set_eq by done.
  - by rewrite get_set_ne, get_set_eq by done.
  - by rewrite get_set_eq.
Qed.

Lemma requestReset_found e f body i acct :
  truthy (prop "email" body) = true →
  find_by "email" (prop "email" body) (load f) = Some (i, acct) →
  requestReset e f (Resolved body) =
    Outcome (Some (<[i:=with_token e acct]> (load f)))
      (Response 200 (Json (VObj
         [("message", VStr "reset token generated (demo)");
          ("token", VStr (randomHex e))]))).
Proof.
  intros Hemail Hfind. unfold requestReset, then_catch, requestReset_then.
  rewrite !prop_or_empty, Hemail. cbn [negb]. by rewrite Hfind.
Qed.

(** The checks of the reset handler, in their order. *)
Lemma completeReset_no_request e f body i acct :
  truthy (prop "email" body) = true →
  truthy (prop "token" body) = true →
  truthy (prop "newPassword" body) = true →
  find_by "email" (prop "email" body) (load f) = Some (i, acct) →
  truthy (get "resetTokenHash" acct) = false
  ∨ truthy (get "resetTokenExpiry" acct) = false →
  completeReset e f (Resolved body) = refuse 400 "no reset requested".
Proof.
  intros Hemail Htoken Hnew Hfind Hnone.
  unfold completeReset, then_catch, completeReset_then.
  rewrite !prop_or_empty, Hemail, Htoken, Hnew. cbn [negb orb].
  rewrite Hfind. by destruct Hnone as [-> | ->]; [|rewrite orb_true_r].
Qed.

Lemma completeReset_expired e f body i acct t :
  truthy (prop "email" body) = true →
  truthy (prop "token" body) = true →
  truthy (prop "newPassword" body) = true →
  find_by "email" (prop "email" body) (load f) = Some (i, acct) →
  truthy (get "resetTokenHash" acct) = true →
  get "resetTokenExpiry" acct = Some (VNum t) → t ≠ 0 →
  t < now e →
  completeReset e f (Resolved body) = refuse 400 "token expired".
Proof.
  intros Hemail Htoken Hnew Hfind Hhash Hexpiry Ht Hlate.
  unfold completeReset, then_catch, completeReset_then.
  rewrite !prop_or_empty, Hemail, Htoken, Hnew. cbn [negb orb].
  rewrite Hfind, Hhash, Hexpiry. cbn [truthy gt negb orb].
  rewrite (proj2 (Z.eqb_neq _ _)) by done. cbn [negb].
  by rewrite bool_decide_eq_true_2.
Qed.


(** A 200 response means that every check passed and the write was
    made. *)
Lemma completeReset_updated e f rq :
  status (reply (completeReset e f rq)) = 200 →
  ∃ body i acct tokenHash h,
    rq = Resolved body
    ∧ truthy (prop "email" body) = true
    ∧ find_by "email" (prop "email" body) (load f) = Some (i, acct)
    ∧ gt (now e) (get "resetTokenExpiry" acct) = false
    ∧ digest sha256 (prop "token" body) = Some tokenHash
    ∧ get "resetTokenHash" acct = Some (VStr tokenHash)
    ∧ hashPassword (prop "newPassword" body) (Some (VStr (randomHex e)))
      = Some h
    ∧ completeReset e f rq =
        Outcome (Some (<[i:=with_password e h acct]> (load f)))
          (Response 200 (Json (VObj [("message", VStr "password updated")]))).
Proof.
  unfold completeReset, then_catch. destruct rq as [body|]; [|done].
  unfold completeReset_then. rewrite !prop_or_empty.
  destruct (truthy (prop "email" body)) eqn:Hemail; [|done].
  destruct (truthy (prop "token" body)); [|done].
  destruct (truthy (prop "newPassword" body)); [|done].
  cbn [negb orb].
  destruct (find_by _ _ _) as [[i acct]|] eqn:Hfind; [|done].
  destruct (negb _ || negb _); [done|].
  destruct (gt _ _) eqn:Hgt; [done|].
  destruct (digest _ _) as [tokenHash|] eqn:Hdigest; [|done].
  cbn [mbind option_bind].
  destruct (strict_eq _ _) eqn:Heq; [|done]. cbn [negb].
  destruct (hashPassword _ _) as [h|] eqn:Hhash; [|done].
  intros _. exists body, i, acct, tokenHash, h. split_and!; try done.
  destruct (get "resetTokenHash" acct) as [[]|]; try done.
  by apply strict_eq_str in Heq as ->.
Qed.

(** C5. A reset submitted with all its fields for an account with a
    pending reset, at a clock reading strictly after the stored expiry,
    answers 400 [{error:'token expired'}] and writes nothing: the
    accounts file, and so the password hash and salt, stay as they
    were. *)
Theorem completeReset_after_expiry e f body i acct t :
  truthy (prop "email" body) = true →
  truthy (prop "token" body) = true →
  truthy (prop "newPassword" body) = true →
  find_by "email" (prop "email" body) (load f) = Some (i, acct) →
  truthy (get "resetTokenHash" acct) = true →
  get "resetTokenExpiry" acct = Some (VNum t) → t ≠ 0 →
  t < now e →
  let attempt := completeReset e f (Resolved body) in
  reply attempt = error 400 "token expired"
  ∧ written attempt = None
  ∧ commit f attempt = f.
Proof.
  intros Hemail Htoken Hnew Hfind Hhash Hexpiry Ht Hlate. cbn zeta.
  by erewrite completeReset_expired.
Qed.

(** C6. A successful reset makes one write, which installs the new salt
    and hash and sets [resetTokenHash] and [resetTokenExpiry] to null; a
    further reset for the same email, with any token and new password,
    then answers 400 [{error:'no reset requested'}] and writes
    nothing. *)
Theorem reset_token_single_use e1 f body1 :
  status (reply (completeReset e1 f (Resolved body1))) = 200 →
  let first := completeReset e1 f (Resolved body1) in
  (∃ i acct h,
      find_by "email" (prop "email" body1) (load f) = Some (i, acct)
      ∧ hashPassword (prop "newPassword" body1) (Some (VStr (randomHex e1)))
        = Some h
      ∧ written first = Some (<[i:=with_password e1 h acct]> (load f))
      ∧ get "passwordSalt" (with_password e1 h acct)
        = Some (VStr (randomHex e1))
      ∧ get "passwordHash" (with_password e1 h acct) = Some (VStr h)
      ∧ get "resetTokenHash" (with_password e1 h acct) = Some VNull
      ∧ get "resetTokenExpiry" (with_password e1 h acct) = Some VNull)
  ∧ ∀ e2 body2,
      prop "email" body2 = prop "email" body1 →
      truthy (prop "token" body2) = true →
      truthy (prop "newPassword" body2) = true →
      completeReset e2 (commit f first) (Resolved body2)
      = refuse 400 "no reset requested".
Proof.
  intros Hok.
  destruct (completeReset_updated _ _ _ Hok)
    as (body & i & acct & th & h & Hbody & Hemail & Hfind & _ & _ & _
        & Hhash & ->).
  injection Hbody as <-. cbn zeta. cbn [written].
  destruct (with_password_get e1 h acct) as (Hmail & Hs & Hh & Hth & Hte).
  split.
  - by exists i, acct, h.
  - intros e2 body2 Hsame Htoken Hnew. unfold commit, writeJSON. cbn [written].
    eapply completeReset_no_request; [by rewrite Hsame|done|done| |].
    + rewrite Hsame. cbn [load default readJSON].
      eapply find_by_insert; [done|].
      rewrite Hmail. by apply find_by_Some in Hfind as [_ ?].
    + left. by rewrite Hth.
Qed.


End Reset.

(** ** The pairing of the reset token hash and its expiry *)

Lemma paired_set k v a :
  k ≠ "resetTokenHash" → k ≠ "resetTokenExpiry" → paired a → paired (set k v a).
Proof. unfold paired. intros ???. by rewrite !get_set_ne. Qed.

Lemma paired_assign_if_string k x a :
  k ≠ "resetTokenHash" → k ≠ "resetTokenExpiry" →
  paired a → paired (assign_if_string k x a).
Proof.
  intros ???. unfold assign_if_string.
  destruct x as [[]|]; try done. by apply paired_set.
Qed.

(** Replacing the account found by one that is paired keeps the file
    paired. *)
Lemma paired_insert k x accounts i a a' :
  Forall paired accounts → find_by k x accounts = Some (i, a) →
  (paired a → paired a') → Forall paired (<[i:=a']> accounts).
Proof.
  intros Hall [Hi _]%find_by_Some Ha'. apply Forall_insert; [done|].
  apply Ha'. by eapply Forall_lookup_1.
Qed.

Section Pairing.
Context `{Runtime}.

Lemma paired_new_account e name email role h :
  paired (new_account e name email role h).
Proof.
  unfold paired.
  by destruct (new_account_get e name email role h) as (_&_&_&_& -> & ->).
Qed.

Lemma paired_upgraded e h a : paired a → paired (upgraded e h a).
Proof.
  intros ?. unfold upgraded. apply paired_set; [done..|]. by apply paired_set.
Qed.

Lemma paired_with_token e a : paired (with_token e a).
Proof.
  unfold paired. by destruct (with_token_get e a) as (_ & -> & ->).
Qed.

Lemma paired_with_password e h a : paired (with_password e h a).
Proof.
  unfold paired. by destruct (with_password_get e h a) as (_&_&_& -> & ->).
Qed.

Lemma signup_paired e f rq :
  Forall paired (load f) → Forall paired (load (commit f (signup e f rq))).
Proof.
  intros Hall. unfold signup, then_catch. destruct rq as [b|]; [|done].
  unfold signup_then.
  destruct (negb _ || negb _); [done|].
  destruct (find_by _ _ _) as [?|]; [done|].
  destruct (hashPassword _ _); [|done].
  apply Forall_app. split; [done|].
  apply Forall_singleton, paired_new_account.
Qed.

Lemma login_paired e f rq :
  Forall paired (load f) → Forall paired (load (commit f (login e f rq))).
Proof.
  intros Hall. unfold login, then_catch. destruct rq as [b|]; [|done].
  unfold login_then.
  destruct (negb _ || negb _); [done|].
  destruct (find_by _ _ _) as [[i acct]|] eqn:Hfind; [|done].
  destruct (hashPassword _ (get _ _)); [|done].
  cbn [mbind option_bind default].
  destruct (strict_eq _ _); [done|].
  destruct (digest _ _); [|done].
  destruct (strict_eq _ _); [|done].
  destruct (hashPassword _ _); [|done].
  eapply paired_insert; [done..|]. apply paired_upgraded.
Qed.

Lemma update_paired f rq :
  Forall paired (load f) → Forall paired (load (commit f (update f rq))).
Proof.
  intros Hall. unfold update, then_catch. destruct rq as [b|]; [|done].
  unfold update_then.
  destruct (negb _); [done|].
  destruct (find_by _ _ _) as [[i acct]|] eqn:Hfind; [|done].
  eapply paired_insert; [done..|]. intros ?.
  apply paired_assign_if_string; [done..|].
  by apply paired_assign_if_string.
Qed.

Lemma requestReset_paired e f rq :
  Forall paired (load f) →
  Forall paired (load (commit f (requestReset e f rq))).
Proof.
  intros Hall. unfold requestReset, then_catch. destruct rq as [b|]; [|done].
  unfold requestReset_then.
  destruct (negb _); [done|].
  destruct (find_by _ _ _) as [[i acct]|] eqn:Hfind; [|done].
  eapply paired_insert; [done..|]. intros _. apply paired_with_token.
Qed.

Lemma completeReset_paired e f rq :
  Forall paired (load f) →
  Forall paired (load (commit f (completeReset e f rq))).
Proof.
  intros Hall. unfold completeReset, then_catch. destruct rq as [b|]; [|done].
  unfold completeReset_then.
  destruct (negb _ || negb _ || negb _); [done|].
  destruct (find_by _ _ _) as [[i acct]|] eqn:Hfind; [|done].
  destruct (negb _ || negb _); [done|].
  destruct (gt _ _); [done|].
  destruct (digest _ _); [|done]. cbn [mbind option_bind].
  destruct (negb _); [done|].
  destruct (hashPassword _ _); [|done].
  eapply paired_insert; [done..|]. intros _. apply paired_with_password.
Qed.

Lemma handle_paired e f r :
  Forall paired (load f) → Forall paired (load (commit f (handle e f r))).
Proof.
  destruct r; simpl;
    auto using signup_paired, login_paired, update_paired,
               requestReset_paired, completeReset_paired.
Qed.

(** C7. In every accounts file reached by a sequence of signup, login,
    update, request-reset and reset requests from a file in which every
    account has [resetTokenHash] and [resetTokenExpiry] both null or both
    set, every account has them both null or both set. *)
Theorem reset_fields_paired f reqs :
  Forall paired (load f) → Forall paired (load (run f reqs)).
Proof.
  revert f. induction reqs as [|[e r] reqs IH]; intros f Hall; [done|].
  simpl. by apply IH, handle_paired.
Qed.

End Pairing.

(** ** Account ids *)

Lemma acct_id_inj t1 t2 : acct_id t1 = acct_id t2 → t1 = t2.
Proof. unfold acct_id. intros Heq. simplify_eq/=. by apply (inj pretty). Qed.

Section Ids.
Context `{Runtime}.

(** Signup leaves the ids as they are, or adds the id of its clock
    reading at the end. *)
Lemma signup_ids e f rq :
  ids (load (commit f (signup e f rq))) = ids (load f)
  ∨ ids (load (commit f (signup e f rq)))
    = (ids (load f) ++ [Some (VStr (acct_id (now e)))])%list.
Proof.
  unfold signup, then_catch. destruct rq as [b|]; [|by left].
  unfold signup_then.
  destruct (negb _ || negb _); [by left|].
  destruct (find_by _ _ _) as [?|]; [by left|].
  destruct (hashPassword _ _) as [h|]; [|by left].
  right. unfold commit, writeJSON. cbn [mbind option_bind default id written load readJSON].
  unfold ids. by rewrite fmap_app.
Qed.

(** C9, as the code has it.  Signup gives the account the id [acct_]
    followed by the clock reading of the request.  After signups whose
    clock readings are pairwise distinct, from a file whose ids are
    unique and are not the id of any of these readings, the ids of the
    accounts are unique. *)
Theorem signup_ids_unique f (reqs : list (env * request_data)) :
  NoDup (ids (load f)) →
  NoDup ((λ er, now er.1) <$> reqs) →
  (∀ er, er ∈ reqs → Some (VStr (acct_id (now er.1))) ∉ ids (load f)) →
  NoDup (ids (load (run f (prod_map id Signup <$> reqs)))).
Proof.
  revert f. induction reqs as [|[e rq] reqs IH]; intros f Hids Hclock Hfresh;
    [done|].
  cbn [fmap list_fmap prod_map fst snd id run handle].
  apply NoDup_cons in Hclock as [Hnow Hclock].
  assert (Some (VStr (acct_id (now e))) ∉ ids (load f)) as Hnew.
  { apply (Hfresh (e, rq)). left. }
  apply IH; [|done|].
  - destruct (signup_ids e f rq) as [-> | ->]; [done|].
    apply NoDup_app. split_and!; [done| |apply NoDup_singleton].
    intros x Hx ->%list_elem_of_singleton. done.
  - intros er Her.
    destruct (signup_ids e f rq) as [-> | ->].
    + apply Hfresh. by right.
    + rewrite not_elem_of_app. split; [apply Hfresh; by right|].
      rewrite list_elem_of_singleton. intros Heq.
      assert (now er.1 = now e) as Hsame by (apply acct_id_inj; congruence).
      apply Hnow. cbn [fst]. rewrite <- Hsame.
      by apply (list_elem_of_fmap_2 (λ er, now er.1)) in Her.
Qed.

End Ids.

(** ** Unparsable request bodies *)

Section Bodies.
Context `{Runtime}.

(** C8 fails for signup: when the request body does not parse, the catch
    handler of [POST /api/accounts] sends the plain text [invalid body]
    with status 400, which is not the JSON object
    [{error:'invalid body'}] that the catch handlers of login, update,
    request-reset and reset send. *)
Theorem signup_rejected_body_is_plain_text e f :
  reply (signup e f Rejected) = Response 400 (Plain "invalid body")
  ∧ reply (signup e f Rejected) ≠ error 400 "invalid body"
  ∧ reply (login e f Rejected) = error 400 "invalid body"
  ∧ reply (update f Rejected) = error 400 "invalid body"
  ∧ reply (requestReset e f Rejected) = error 400 "invalid body"
  ∧ reply (completeReset e f Rejected) = error 400 "invalid body".
Proof. by split_and!. Qed.

(** Every response of login, update, request-reset and reset other than
    the 200 one has a body of the form [{error: msg}]. *)
Lemma errors_are_json e f r :
  (∀ rq, r ≠ Signup rq) →
  status (reply (handle e f r)) ≠ 200 →
  ∃ code msg, reply (handle e f r) = error code msg.
Proof.
  intros Hr. destruct r as [rq|rq|rq|rq|rq]; [by destruct (Hr rq)|..];
    cbn [handle]; destruct rq as [b|]; try (by eexists _, _).
  - unfold login, then_catch, login_then.
    destruct (negb _ || negb _); [by eexists _, _|].
    destruct (find_by _ _ _) as [[i acct]|]; [|by eexists _, _].
    destruct (hashPassword _ (get _ _)); [|by eexists _, _].
    cbn [mbind option_bind default].
    destruct (strict_eq _ _); [done|].
    destruct (digest _ _); [|by eexists _, _].
    destruct (strict_eq _ _); [|by eexists _, _].
    by destruct (hashPassword _ _).
  - unfold update, then_catch, update_then.
    destruct (negb _); [by eexists _, _|].
    by destruct (find_by _ _ _) as [[i acct]|]; [|by eexists _, _].
  - unfold requestReset, then_catch, requestReset_then.
    destruct (negb _); [by eexists _, _|].
    by destruct (find_by _ _ _) as [[i acct]|]; [|by eexists _, _].
  - unfold completeReset, then_catch, completeReset_then.
    destruct (negb _ || negb _ || negb _); [by eexists _, _|].
    destruct (find_by _ _ _) as [[i acct]|]; [|by eexists _, _].
    destruct (negb _ || negb _); [by eexists _, _|].
    destruct (gt _ _); [by eexists _, _|].
    destruct (digest _ _); [|by eexists _, _]. cbn [mbind option_bind].
    destruct (negb _); [by eexists _, _|].
    by destruct (hashPassword _ _); [|by eexists _, _].
Qed.

End Bodies.

(** ** The scenarios, run *)

(** [alice] is the account that signup stores, and [alice_pending] what a
    reset request makes of it. *)
Example signup_stores_alice :
  commit None (@signup demo noon None (Resolved (credentials "a@x.com" "p1")))
  = Some [alice].
Proof. reflexivity. Qed.

Example requestReset_stores_alice_pending :
  commit (Some [alice])
    (@requestReset demo noon (Some [alice])
       (Resolved (VObj [("email", VStr "a@x.com")])))
  = Some [alice_pending].
Proof. reflexivity. Qed.

(** A legacy account with a salt property is upgraded by its first login. *)
Example salted_legacy_login :
  written (@login demo later (Some [@salted_legacy_account demo "a@x.com" "p1"])
             (Resolved (credentials "a@x.com" "p1")))
  = Some [[("id", VStr "acct_1"); ("email", VStr "a@x.com");
           ("passwordHash", VStr "scrypt(p1,a1b2)");
           ("passwordSalt", VStr "a1b2")]].
Proof. reflexivity. Qed.

Lemma signup_then_login_witness :
  let created := @signup demo noon None (Resolved (credentials "a@x.com" "p1")) in
  let logged :=
    @login demo later (commit None created)
      (Resolved (credentials "a@x.com" "p1")) in
  status (reply logged) = 200
  ∧ written logged = None
  ∧ (∃ view, body (reply logged) = Json (VObj view) ∧ public view)
  ∧ is_Some (field "id" (reply created))
  ∧ field "id" (reply logged) = field "id" (reply created).
Proof.
  destruct (@signup_then_login demo noon later None
              (credentials "a@x.com" "p1") (credentials "a@x.com" "p1")
              "a@x.com" "p1" eq_refl eq_refl eq_refl eq_refl eq_refl)
    as (Hstatus & Hwritten & Hview & Hid & Hsame & _).
  by split_and!.
Defined.

Lemma login_failures_uniform_witness :
  @login demo noon None (Resolved (credentials "nobody@x.com" "p1"))
  = refuse 401 "invalid credentials"
  ∧ @login demo later (Some [alice]) (Resolved (credentials "a@x.com" "wrong"))
    = @login demo noon None (Resolved (credentials "nobody@x.com" "p1")).
Proof.
  apply (@login_failures_uniform demo noon later None (Some [alice])
           (credentials "nobody@x.com" "p1") (credentials "a@x.com" "wrong")
           "wrong" 0%nat alice "00ff");
    (reflexivity || discriminate).
Defined.

Lemma completeReset_after_expiry_witness :
  let attempt :=
    @completeReset demo too_late (Some [alice_pending])
      (Resolved (reset_body "a@x.com" "00ff" "p2")) in
  reply attempt = error 400 "token expired"
  ∧ written attempt = None
  ∧ commit (Some [alice_pending]) attempt = Some [alice_pending].
Proof.
  apply (@completeReset_after_expiry demo too_late (Some [alice_pending])
           (reset_body "a@x.com" "00ff" "p2") 0%nat alice_pending
           1700003600000);
    (reflexivity || discriminate).
Defined.

Lemma reset_token_single_use_witness :
  let first :=
    @completeReset demo later (Some [alice_pending])
      (Resolved (reset_body "a@x.com" "00ff" "p2")) in
  @completeReset demo too_late (commit (Some [alice_pending]) first)
    (Resolved (reset_body "a@x.com" "00ff" "p3"))
  = refuse 400 "no reset requested".
Proof.
  destruct (@reset_token_single_use demo later (Some [alice_pending])
              (reset_body "a@x.com" "00ff" "p2") eq_refl) as [_ Hsecond].
  apply Hsecond; reflexivity.
Defined.

Lemma reset_fields_paired_witness :
  Forall paired
    (load (@run demo (Some [alice])
       [(noon, RequestReset (Resolved (VObj [("email", VStr "a@x.com")])));
        (later, Signup (Resolved (credentials "b@x.com" "p2")));
        (later, CompleteReset (Resolved (reset_body "a@x.com" "00ff" "p3")));
        (too_late, Login (Resolved (credentials "a@x.com" "p3")))])).
Proof.
  apply (@reset_fields_paired demo (Some [alice])).
  apply Forall_singleton. reflexivity.
Defined.

Lemma signup_ids_unique_witness :
  NoDup (ids (load (@run demo None
    [(noon, Signup (Resolved (credentials "a@x.com" "p1")));
     (later, Signup (Resolved (credentials "b@x.com" "p2")))]))).
Proof.
  apply (@signup_ids_unique demo None
           [(noon, Resolved (credentials "a@x.com" "p1"));
            (later, Resolved (credentials "b@x.com" "p2"))]).
  - apply NoDup_nil_2.
  - apply NoDup_cons. split; [|apply NoDup_singleton].
    rewrite list_elem_of_singleton. discriminate.
  - intros er _. apply not_elem_of_nil.
Defined.

(** C9 fails when two signups read the same clock value: both succeed,
    and the second account gets the id that the first already has. *)
Lemma signup_id_collision :
  let f1 :=
    commit None (@signup demo noon None (Resolved (credentials "a@x.com" "p1"))) in
  let second := @signup demo noon f1 (Resolved (credentials "b@x.com" "p2")) in
  status (reply second) = 201
  ∧ field "id" (reply second) ∈ ids (load f1)
  ∧ ¬ NoDup (ids (load (commit f1 second))).
Proof.
  split_and!.
  - reflexivity.
  - apply list_elem_of_here.
  - intros [Hin _]%NoDup_cons. apply Hin. apply list_elem_of_here.
Qed.


(** ** What the public view keeps *)

Lemma omit_omit ks o : omit ks (omit ks o) = omit ks o.
Proof.
  unfold omit. induction o as [|[k v] o IH]; [done|].
  rewrite filter_cons. case_decide as Hk; [|done].
  rewrite filter_cons, decide_True by done. by rewrite IH.
Qed.

(** The view of each account is at the index of the account, and has every
    property of the account but the four sensitive ones; sanitizing twice
    is sanitizing once; [null] gives the empty list. *)
Theorem sanitize_keeps_the_rest accounts :
  length (sanitizeAccountsForPublic (Some accounts)) = length accounts
  ∧ (∀ j a, accounts !! j = Some a →
       ∃ view, sanitizeAccountsForPublic (Some accounts) !! j = Some view
               ∧ same_but sensitive a view)
  ∧ sanitizeAccountsForPublic (Some (sanitizeAccountsForPublic (Some accounts)))
    = sanitizeAccountsForPublic (Some accounts)
  ∧ sanitizeAccountsForPublic None = [].
Proof.
  unfold sanitizeAccountsForPublic. cbn [default from_option id]. split_and!.
  - apply length_fmap.
  - intros j a Hj. exists (omit sensitive a). split.
    + by rewrite list_lookup_fmap, Hj.
    + intros k Hk. by apply get_omit_not_elem.
  - rewrite <- list_fmap_compose. apply list_fmap_ext. intros _ a _.
    apply omit_omit.
  - done.
Qed.

(** ** What the requests leave alone *)

Lemma same_but_refl ks a : same_but ks a a.
Proof. by intros k _. Qed.

Lemma same_but_trans ks a b c :
  same_but ks a b → same_but ks b c → same_but ks a c.
Proof. intros Hab Hbc k Hk. by rewrite Hbc, Hab. Qed.

Lemma same_but_weaken ks ks' a b :
  ks ⊆ ks' → same_but ks a b → same_but ks' a b.
Proof. intros Hsub Hab k Hk. apply Hab. intros Hin. by apply Hk, Hsub. Qed.

Lemma same_but_set ks k v a : k ∈ ks → same_but ks a (set k v a).
Proof. intros Hk k' Hk'. apply get_set_ne. by intros ->. Qed.

Lemma same_but_assign_if_string ks k x a :
  k ∈ ks → same_but ks a (assign_if_string k x a).
Proof.
  intros Hk. unfold assign_if_string.
  destruct x as [[]|]; try apply same_but_refl. by apply same_but_set.
Qed.

Lemma kept_but_refl ks l : kept_but ks l l.
Proof. intros j a Hj. exists a. split; [done|apply same_but_refl]. Qed.

Lemma kept_but_trans ks l1 l2 l3 :
  kept_but ks l1 l2 → kept_but ks l2 l3 → kept_but ks l1 l3.
Proof.
  intros H12 H23 j a Hj. destruct (H12 j a Hj) as (b & Hb & Hab).
  destruct (H23 j b Hb) as (c & Hc & Hbc).
  exists c. split; [done|]. by eapply same_but_trans.
Qed.

Lemma kept_but_weaken ks ks' l l' :
  ks ⊆ ks' → kept_but ks l l' → kept_but ks' l l'.
Proof.
  intros Hsub Hl j a Hj. destruct (Hl j a Hj) as (a' & Ha' & Hsame).
  exists a'. split; [done|]. by eapply same_but_weaken.
Qed.

Lemma kept_but_snoc ks l a : kept_but ks l (l ++ [a]).
Proof.
  intros j b Hj. exists b. split; [|apply same_but_refl].
  by apply lookup_app_l_Some.
Qed.

Lemma kept_but_insert ks k x l i a a' :
  find_by k x l = Some (i, a) → same_but ks a a' →
  kept_but ks l (<[i:=a']> l).
Proof.
  intros [Hi _]%find_by_Some Hsame j b Hj.
  destruct (decide (i = j)) as [->|Hne].
  - assert (b = a) as -> by congruence.
    exists a'. split; [|done].
    apply list_lookup_insert_eq. by eapply lookup_lt_Some.
  - exists b. rewrite list_lookup_insert_ne by done.
    split; [done|apply same_but_refl].
Qed.

Lemma kept_but_length ks l l' : kept_but ks l l' → (length l ≤ length l')%nat.
Proof.
  intros Hl. destruct (decide (length l ≤ length l')%nat) as [|Hlt]; [done|].
  destruct (lookup_lt_is_Some_2 l (length l')) as [a Ha]; [lia|].
  destruct (Hl _ _ Ha) as (a' & Ha'%lookup_lt_Some & _). lia.
Qed.

Ltac elem_of_list := repeat first [apply list_elem_of_here | apply list_elem_of_further].

Ltac not_elem_of_list :=
  let Hin := fresh "Hin" in
  intros Hin; repeat (apply elem_of_cons in Hin as [?|Hin]; [done|]);
  by apply elem_of_nil in Hin.

Section Frame.
Context `{Runtime}.

(** The accounts that a request keeps, and the properties it may assign. *)
Lemma handle_frame e f r :
  kept_but (touched r) (load f) (load (commit f (handle e f r))).
Proof.
  destruct r as [rq|rq|rq|rq|rq]; cbn [handle touched];
    (destruct rq as [b|]; [|apply kept_but_refl]).
  - unfold signup, then_catch, signup_then.
    destruct (negb _ || negb _); [apply kept_but_refl|].
    destruct (find_by _ _ _) as [?|]; [apply kept_but_refl|].
    destruct (hashPassword _ _); [|apply kept_but_refl].
    apply kept_but_snoc.
  - unfold login, then_catch, login_then.
    destruct (negb _ || negb _); [apply kept_but_refl|].
    destruct (find_by _ _ _) as [[i acct]|] eqn:Hfind; [|apply kept_but_refl].
    destruct (hashPassword _ (get _ _)); [|apply kept_but_refl].
    cbn [mbind option_bind default].
    destruct (strict_eq _ _); [apply kept_but_refl|].
    destruct (digest _ _); [|apply kept_but_refl].
    destruct (strict_eq _ _); [|apply kept_but_refl].
    destruct (hashPassword _ _); [|apply kept_but_refl].
    eapply kept_but_insert; [done|]. unfold upgraded.
    eapply same_but_trans; apply same_but_set; elem_of_list.
  - unfold update, then_catch, update_then.
    destruct (negb _); [apply kept_but_refl|].
    destruct (find_by _ _ _) as [[i acct]|] eqn:Hfind; [|apply kept_but_refl].
    eapply kept_but_insert; [done|].
    eapply same_but_trans; apply same_but_assign_if_string; elem_of_list.
  - unfold requestReset, then_catch, requestReset_then.
    destruct (negb _); [apply kept_but_refl|].
    destruct (find_by _ _ _) as [[i acct]|] eqn:Hfind; [|apply kept_but_refl].
    eapply kept_but_insert; [done|]. unfold with_token.
    eapply same_but_trans; apply same_but_set; elem_of_list.
  - unfold completeReset, then_catch, completeReset_then.
    destruct (negb _ || negb _ || negb _); [apply kept_but_refl|].
    destruct (find_by _ _ _) as [[i acct]|] eqn:Hfind; [|apply kept_but_refl].
    destruct (negb _ || negb _); [apply kept_but_refl|].
    destruct (gt _ _); [apply kept_but_refl|].
    destruct (digest _ _); [|apply kept_but_refl]. cbn [mbind option_bind].
    destruct (negb _); [apply kept_but_refl|].
    destruct (hashPassword _ _); [|apply kept_but_refl].
    eapply kept_but_insert; [done|]. unfold with_password.
    do 3 (eapply same_but_trans; [|apply same_but_set; elem_of_list]).
    apply same_but_set; elem_of_list.
Qed.

(** The number of accounts after a request: one more after a signup that
    stores an account, the same otherwise. *)
Lemma handle_length e f r :
  length (load (commit f (handle e f r))) = length (load f)
  ∨ (∃ rq, r = Signup rq)
    ∧ length (load (commit f (handle e f r))) = S (length (load f)).
Proof.
  destruct r as [rq|rq|rq|rq|rq]; cbn [handle];
    (destruct rq as [b|]; [|by left]).
  - unfold signup, then_catch, signup_then.
    destruct (negb _ || negb _); [by left|].
    destruct (find_by _ _ _) as [?|]; [by left|].
    destruct (hashPassword _ _); [|by left].
    right. split; [by eexists|].
    unfold commit, writeJSON.
    cbn [mbind option_bind default id written load readJSON].
    rewrite length_app. simpl. lia.
  - left. unfold login, then_catch, login_then.
    destruct (negb _ || negb _); [done|].
    destruct (find_by _ _ _) as [[i acct]|]; [|done].
    destruct (hashPassword _ (get _ _)); [|done].
    cbn [mbind option_bind default].
    destruct (strict_eq _ _); [done|].
    destruct (digest _ _); [|done].
    destruct (strict_eq _ _); [|done].
    destruct (hashPassword _ _); [|done].
    apply length_insert.
  - left. unfold update, then_catch, update_then.
    destruct (negb _); [done|].
    destruct (find_by _ _ _) as [[i acct]|]; [|done].
    apply length_insert.
  - left. unfold requestReset, then_catch, requestReset_then.
    destruct (negb _); [done|].
    destruct (find_by _ _ _) as [[i acct]|]; [|done].
    apply length_insert.
  - left. unfold completeReset, then_catch, completeReset_then.
    destruct (negb _ || negb _ || negb _); [done|].
    destruct (find_by _ _ _) as [[i acct]|]; [|done].
    destruct (negb _ || negb _); [done|].
    destruct (gt _ _); [done|].
    destruct (digest _ _); [|done]. cbn [mbind option_bind].
    destruct (negb _); [done|].
    destruct (hashPassword _ _); [|done].
    apply length_insert.
Qed.

Lemma touched_mutable r : touched r ⊆ mutable.
Proof.
  destruct r; intros k Hk; cbn [touched] in Hk;
    repeat (apply elem_of_cons in Hk as [->|Hk]; [elem_of_list|]);
    by apply elem_of_nil in Hk.
Qed.

(** Each request keeps every stored account at its index and assigns at
    most the properties that [touched] lists for it: nothing for signup,
    the password hash and salt for login, the name and description for
    update, the reset token hash and expiry for request-reset, and these
    four credential properties for reset.  Only signup adds an account,
    and one at most. *)
Theorem handle_keeps_accounts e f r :
  let before := load f in
  let after := load (commit f (handle e f r)) in
  kept_but (touched r) before after
  ∧ (length after = length before
     ∨ (∃ rq, r = Signup rq) ∧ length after = S (length before)).
Proof. split; [apply handle_frame|apply handle_length]. Qed.

(** No sequence of requests deletes or moves an account, and none changes
    a property of a stored account other than its name, description,
    password hash and salt, and reset token hash and expiry: the id, the
    email, the role and the creation time stay what signup stored. *)
Theorem accounts_never_lost f reqs :
  kept_but mutable (load f) (load (run f reqs))
  ∧ (length (load f) ≤ length (load (run f reqs)))%nat.
Proof.
  assert (kept_but mutable (load f) (load (run f reqs))) as Hkept.
  { revert f. induction reqs as [|[e r] reqs IH]; intros f;
      [apply kept_but_refl|].
    cbn [run]. eapply kept_but_trans; [|apply IH].
    eapply kept_but_weaken; [apply touched_mutable|apply handle_frame]. }
  split; [done|by eapply kept_but_length].
Qed.

End Frame.

(** ** Emails *)

Lemma strict_eq_sym x y : strict_eq x y = strict_eq y x.
Proof.
  destruct x as [[]|], y as [[]|]; simpl; try done.
  - by destruct b, b0.
  - apply Z.eqb_sym.
  - apply String.eqb_sym.
Qed.

Lemma find_by_None k x accounts a :
  find_by k x accounts = None → a ∈ accounts →
  strict_eq (get k a) x = false.
Proof.
  unfold find_by. intros Hnone%list_find_None Ha.
  eapply Forall_forall in Hnone; [|done].
  by destruct (strict_eq (get k a) x).
Qed.

Lemma unique_emails_snoc accounts a :
  unique_emails accounts →
  find_by "email" (get "email" a) accounts = None →
  unique_emails (accounts ++ [a]).
Proof.
  intros Huniq Hnone i j x y s Hi Hj Hx Hy.
  apply lookup_app_Some in Hi as [Hi|[Hleni Hi]];
    apply lookup_app_Some in Hj as [Hj|[Hlenj Hj]].
  - by eapply Huniq.
  - apply list_lookup_singleton_Some in Hj as [_ <-].
    apply list_elem_of_lookup_2 in Hi.
    pose proof (find_by_None _ _ _ _ Hnone Hi) as Hne.
    rewrite Hx, Hy in Hne. by rewrite (proj2 (strict_eq_str s s)) in Hne.
  - apply list_lookup_singleton_Some in Hi as [_ <-].
    apply list_elem_of_lookup_2 in Hj.
    pose proof (find_by_None _ _ _ _ Hnone Hj) as Hne.
    rewrite Hx, Hy in Hne. by rewrite (proj2 (strict_eq_str s s)) in Hne.
  - apply list_lookup_singleton_Some in Hi as [Hi _].
    apply list_lookup_singleton_Some in Hj as [Hj _]. lia.
Qed.

Lemma unique_emails_insert k x accounts i a a' :
  unique_emails accounts →
  find_by k x accounts = Some (i, a) →
  get "email" a' = get "email" a →
  unique_emails (<[i:=a']> accounts).
Proof.
  intros Huniq [Hi _]%find_by_Some Hmail j1 j2 x1 x2 s H1 H2 Hx1 Hx2.
  apply list_lookup_insert_Some in H1 as [(-> & <- & _)|[Hne1 H1]];
    apply list_lookup_insert_Some in H2 as [(<- & <- & _)|[Hne2 H2]];
    try done.
  - rewrite Hmail in Hx1. by eapply Huniq.
  - rewrite Hmail in Hx2. by eapply Huniq.
  - by eapply Huniq.
Qed.

Section Emails.
Context `{Runtime}.

Lemma handle_unique_emails e f r :
  unique_emails (load f) → unique_emails (load (commit f (handle e f r))).
Proof.
  intros Huniq.
  destruct r as [rq|rq|rq|rq|rq]; cbn [handle];
    (destruct rq as [b|]; [|done]).
  - unfold signup, then_catch, signup_then.
    destruct (negb _ || negb _); [done|].
    destruct (find_by _ _ _) as [?|] eqn:Hfind; [done|].
    destruct (hashPassword _ _) as [h|]; [|done].
    apply unique_emails_snoc; [done|].
    by destruct (new_account_get e (prop "name" (or_empty b))
                   (prop "email" (or_empty b))
                   (default (VStr "user") (prop "role" (or_empty b))) h)
      as (_ & -> & _).
  - unfold login, then_catch, login_then.
    destruct (negb _ || negb _); [done|].
    destruct (find_by _ _ _) as [[i acct]|] eqn:Hfind; [|done].
    destruct (hashPassword _ (get _ _)); [|done].
    cbn [mbind option_bind default].
    destruct (strict_eq _ _); [done|].
    destruct (digest _ _); [|done].
    destruct (strict_eq _ _); [|done].
    destruct (hashPassword _ _); [|done].
    eapply unique_emails_insert; [done..|]. apply upgraded_get.
  - unfold update, then_catch, update_then.
    destruct (negb _); [done|].
    destruct (find_by _ _ _) as [[i acct]|] eqn:Hfind; [|done].
    eapply unique_emails_insert; [done..|].
    eapply (same_but_trans ["name"; "description"]);
      [apply same_but_assign_if_string|apply same_but_assign_if_string|];
      [elem_of_list..|].
    not_elem_of_list.
  - unfold requestReset, then_catch, requestReset_then.
    destruct (negb _); [done|].
    destruct (find_by _ _ _) as [[i acct]|] eqn:Hfind; [|done].
    eapply unique_emails_insert; [done..|]. apply with_token_get.
  - unfold completeReset, then_catch, completeReset_then.
    destruct (negb _ || negb _ || negb _); [done|].
    destruct (find_by _ _ _) as [[i acct]|] eqn:Hfind; [|done].
    destruct (negb _ || negb _); [done|].
    destruct (gt _ _); [done|].
    destruct (digest _ _); [|done]. cbn [mbind option_bind].
    destruct (negb _); [done|].
    destruct (hashPassword _ _); [|done].
    eapply unique_emails_insert; [done..|]. apply with_password_get.
Qed.

(** No sequence of requests makes two accounts share an email: if no two
    stored accounts have the same string as email, none have after the
    requests. *)
Theorem emails_stay_unique f reqs :
  unique_emails (load f) → unique_emails (load (run f reqs)).
Proof.
  revert f. induction reqs as [|[e r] reqs IH]; intros f Huniq; [done|].
  cbn [run]. by apply IH, handle_unique_emails.
Qed.

(** A signup with an email and a password present whose email is the
    email of a stored account answers 409 [{error:'email exists'}] and
    writes nothing, whatever the name and the role of the request are and
    whatever the password is, also one that is not a string: the password
    is not hashed before the email is looked up. *)
Theorem signup_duplicate_email e f body i acct :
  truthy (prop "email" body) = true →
  truthy (prop "password" body) = true →
  find_by "email" (prop "email" body) (load f) = Some (i, acct) →
  signup e f (Resolved body) = refuse 409 "email exists".
Proof.
  intros Hemail Hpassword Hfind. unfold signup, then_catch, signup_then.
  rewrite !prop_or_empty, Hemail, Hpassword. cbn [negb orb].
  by rewrite Hfind.
Qed.

(** In the outcome of a handler, a status other than 200 and 201 comes
    with no write. *)
Lemma error_outcome_unwritten e f r :
  status (reply (handle e f r)) ≠ 200 →
  status (reply (handle e f r)) ≠ 201 →
  written (handle e f r) = None ∧ commit f (handle e f r) = f.
Proof.
  assert (written (handle e f r) = None → commit f (handle e f r) = f) as Hc.
  { unfold commit. by intros ->. }
  intros H200 H201. split; [|apply Hc]; revert H200 H201;
    (destruct r as [rq|rq|rq|rq|rq]; cbn [handle];
     (destruct rq as [b|]; [|done])).
  all: try (unfold signup, then_catch, signup_then;
    destruct (negb _ || negb _); [done|];
    destruct (find_by _ _ _) as [?|]; [done|];
    by destruct (hashPassword _ _)).
  all: try (unfold login, then_catch, login_then;
    destruct (negb _ || negb _); [done|];
    destruct (find_by _ _ _) as [[i acct]|]; [|done];
    destruct (hashPassword _ (get _ _)); [|done];
    cbn [mbind option_bind default];
    destruct (strict_eq _ _); [done|];
    destruct (digest _ _); [|done];
    destruct (strict_eq _ _); [|done];
    by destruct (hashPassword _ _)).
  all: try (unfold update, then_catch, update_then;
    destruct (negb _); [done|];
    by destruct (find_by _ _ _) as [[i acct]|]).
  all: try (unfold requestReset, then_catch, requestReset_then;
    destruct (negb _); [done|];
    by destruct (find_by _ _ _) as [[i acct]|]).
  all: unfold completeReset, then_catch, completeReset_then;
    destruct (negb _ || negb _ || negb _); [done|];
    destruct (find_by _ _ _) as [[i acct]|]; [|done];
    destruct (negb _ || negb _); [done|];
    destruct (gt _ _); [done|];
    (destruct (digest _ _); [|done]); cbn [mbind option_bind];
    destruct (negb _); [done|];
    by destruct (hashPassword _ _).
Qed.

(** Every check of a handler comes before its write.  When a request is
    answered with a status other than 200 and 201, either [writeJSON] was
    not called and the accounts file is as it was, or it was called and
    threw: then the handler is not login, which ignores the exception and
    sends its 200, and the answer is that of the handler's [catch]. *)
Theorem checks_come_before_the_write e f r write_throws :
  let o := handle e f r in
  status (deliver write_throws r o) ≠ 200 →
  status (deliver write_throws r o) ≠ 201 →
  (written o = None ∧ commit f o = f)
  ∨ (write_throws = true ∧ is_Some (written o)
     ∧ (∀ rq, r ≠ Login rq)
     ∧ deliver write_throws r o = catch_reply r).
Proof.
  cbn zeta. intros H200 H201.
  destruct (written (handle e f r)) as [l|] eqn:Hwritten; last first.
  { left. split; [done|]. unfold commit. by rewrite Hwritten. }
  assert (¬ (status (reply (handle e f r)) ≠ 200
             ∧ status (reply (handle e f r)) ≠ 201)) as Hsent.
  { intros [??].
    destruct (error_outcome_unwritten e f r) as [Hnone _]; [done..|].
    congruence. }
  unfold deliver in *. rewrite Hwritten in *.
  destruct r as [rq|rq|rq|rq|rq], write_throws;
    try (by destruct Hsent); right; by split_and!.
Qed.

(** A parsed body that is not a JSON object (null, a boolean, a number, a
    string, an array) is handled as [{}]: every handler answers its 400
    for the missing fields and writes nothing. *)
Theorem non_object_body_has_no_fields e f v :
  not_object v →
  signup e f (Resolved v) = refuse 400 "email and password required"
  ∧ login e f (Resolved v) = refuse 400 "email and password required"
  ∧ update f (Resolved v) = refuse 400 "id required"
  ∧ requestReset e f (Resolved v) = refuse 400 "email required"
  ∧ completeReset e f (Resolved v)
    = refuse 400 "email,token,newPassword required"
  ∧ follow e f (Resolved v) = refuse 400 "accountId and email required"
  ∧ notifyFollowers f (Resolved v)
    = refuse 400 "accountId and threshold required".
Proof.
  intros Hv.
  assert (∀ k, prop k (or_empty v) = None) as Hprop.
  { intros k. rewrite prop_or_empty. by destruct v. }
  unfold signup, login, update, requestReset, completeReset, follow,
    notifyFollowers, then_catch, signup_then, login_then, update_then,
    requestReset_then, completeReset_then, follow_then, notifyFollowers_then.
  by rewrite !Hprop.
Qed.

(** An empty request body is not parsed and is handled as [{}], so signup
    and login answer 400 for the missing fields; a body that [JSON.parse]
    rejects gets 400 [invalid body], as plain text from signup and as
    [{error:'invalid body'}] from login. *)
Theorem request_body_edge_cases parse chunks e f :
  let text := foldl (λ body chunk, body +:+ chunk) "" chunks in
  let rq := getRequestData parse chunks in
  (text = "" →
     rq = Resolved (VObj [])
     ∧ signup e f rq = refuse 400 "email and password required"
     ∧ login e f rq = refuse 400 "email and password required")
  ∧ (text ≠ "" → parse text = None →
     rq = Rejected
     ∧ signup e f rq = Outcome None (Response 400 (Plain "invalid body"))
     ∧ login e f rq = refuse 400 "invalid body")
  ∧ (∀ v, text ≠ "" → parse text = Some v → rq = Resolved v).
Proof.
  cbn zeta. unfold getRequestData. split_and!.
  - intros ->. by rewrite String.eqb_refl.
  - intros Hne%String.eqb_neq ->. by rewrite Hne.
  - intros v Hne%String.eqb_neq ->. by rewrite Hne.
Qed.

End Emails.

(** ** Reading back what was written *)

Lemma acct_id_nonempty t : String.eqb (acct_id t) "" = false.
Proof. done. Qed.

Section ReadBack.
Context `{Runtime}.

Lemma getById_found f i j acct :
  i ≠ "" → find_by "id" (Some (VStr i)) (load f) = Some (j, acct) →
  getById f (Some i) = Response 200 (Json (VObj (omit sensitive acct))).
Proof.
  intros Hi%String.eqb_neq Hfind. unfold getById. by rewrite Hi, Hfind.
Qed.

(** An update that names a string name and description answers 200 with
    them, and a following get-by-id for the same id shows them, next to
    every other public property of the account as it was. *)
Theorem update_then_getById f b i n d j acct :
  prop "id" b = Some (VStr i) → i ≠ "" →
  prop "name" b = Some (VStr n) →
  prop "description" b = Some (VStr d) →
  find_by "id" (Some (VStr i)) (load f) = Some (j, acct) →
  let updated := update f (Resolved b) in
  let shown := getById (commit f updated) (Some i) in
  status (reply updated) = 200
  ∧ field "name" (reply updated) = Some (VStr n)
  ∧ field "description" (reply updated) = Some (VStr d)
  ∧ status shown = 200
  ∧ field "name" shown = Some (VStr n)
  ∧ field "description" shown = Some (VStr d)
  ∧ ∀ k, k ∉ sensitive → k ≠ "name" → k ≠ "description" →
         field k shown = get k acct.
Proof.
  intros Hid Hi Hname Hdesc Hfind. cbn zeta.
  unfold update, then_catch, update_then.
  rewrite !prop_or_empty, Hid, Hname, Hdesc, truthy_str_true by done.
  cbn [negb]. rewrite Hfind. cbn [default id reply status assign_if_string].
  set (acct' := set "description" (VStr d) (set "name" (VStr n) acct)).
  assert (get "name" acct' = Some (VStr n)) as Hn
    by (unfold acct'; by rewrite get_set_ne, get_set_eq).
  assert (get "description" acct' = Some (VStr d)) as Hd
    by (unfold acct'; by rewrite get_set_eq).
  assert (∀ k, k ≠ "name" → k ≠ "description" → get k acct' = get k acct)
    as Hother by (intros k ??; unfold acct'; by rewrite !get_set_ne).
  erewrite getById_found; [|done|]; last first.
  { unfold commit, writeJSON. cbn [written load default readJSON].
    eapply find_by_insert; [done|]. rewrite Hother by done.
    by apply find_by_Some in Hfind as [_ ?]. }
  unfold field. cbn [reply body status prop]. split_and!; [done|..].
  - rewrite Hn, Hd. by destruct (get "id" acct').
  - rewrite Hn, Hd. by destruct (get "id" acct').
  - done.
  - rewrite get_omit_not_elem by by apply not_sensitive_dec. done.
  - rewrite get_omit_not_elem by by apply not_sensitive_dec. done.
  - intros k Hk ??. rewrite get_omit_not_elem by done. by apply Hother.
Qed.

(** For a request whose email is a string and whose name and role are
    strings or absent: after a signup that succeeds with an id that no
    stored account had, get-by-id for that id answers 200 with the id,
    email, name, creation time and role that the signup response carried;
    the role is the string that the request named, ['user'] when it named
    none. *)
Theorem signup_then_getById e f b em :
  prop "email" b = Some (VStr em) →
  string_or_absent (prop "name" b) →
  string_or_absent (prop "role" b) →
  status (reply (signup e f (Resolved b))) = 201 →
  find_by "id" (Some (VStr (acct_id (now e)))) (load f) = None →
  let created := signup e f (Resolved b) in
  let shown := getById (commit f created) (Some (acct_id (now e))) in
  status shown = 200
  ∧ field "id" (reply created) = Some (VStr (acct_id (now e)))
  ∧ field "email" (reply created) = Some (VStr em)
  ∧ field "role" (reply created)
    = Some (default (VStr "user") (prop "role" b))
  ∧ field "id" shown = field "id" (reply created)
  ∧ field "email" shown = field "email" (reply created)
  ∧ field "name" shown = field "name" (reply created)
  ∧ field "createdAt" shown = field "createdAt" (reply created)
  ∧ field "role" shown = field "role" (reply created).
Proof.
  intros Hemail _ _ Hcreated Hfresh.
  destruct (signup_created _ _ _ Hcreated)
    as (b' & h & Hbody & Hem & _ & _ & _ & ->).
  injection Hbody as <-. cbn zeta.
  set (acct := new_account _ _ _ _ _).
  assert (get "id" acct = Some (VStr (acct_id (now e)))) as Hid
    by apply new_account_get.
  assert (acct_id (now e) ≠ "") as Hne
    by apply String.eqb_neq, acct_id_nonempty.
  erewrite getById_found; [|done|]; last first.
  { unfold commit, writeJSON. cbn [written load default readJSON].
    apply find_by_snoc; [done|]. rewrite Hid. by apply strict_eq_str. }
  unfold field, created_view. cbn [reply body status prop].
  rewrite !get_omit_not_elem by by apply not_sensitive_dec.
  unfold acct, new_account. rewrite Hemail.
  by destruct (prop "name" b).
Qed.

End ReadBack.

(** ** A whole password reset *)

Lemma omit_set_elem ks k v o : k ∈ ks → omit ks (set k v o) = omit ks o.
Proof.
  intros Hk. unfold omit. induction o as [|[k' v'] o IH]; simpl.
  - rewrite filter_cons, decide_False; [done|]. simpl. by intros [].
  - destruct (decide (k' = k)) as [->|Hne].
    + rewrite !filter_cons, !decide_False; [done|simpl..]; by intros [].
    + rewrite !filter_cons, IH. done.
Qed.

(** What [find] gets after the account at one index is replaced by an
    object with the same property: the same index, and the replacement
    when that index is the one replaced. *)
Lemma find_by_insert_same k x accounts i a a' :
  accounts !! i = Some a → get k a' = get k a →
  find_by k x (<[i:=a']> accounts)
  = (λ jb, (jb.1, if decide (jb.1 = i) then a' else jb.2))
      <$> find_by k x accounts.
Proof.
  unfold find_by. revert i.
  induction accounts as [|a0 accounts IH]; intros i Hi Hsame; [done|].
  destruct i as [|i]; simpl in *.
  - injection Hi as ->. rewrite Hsame.
    destruct (decide (strict_eq (get k a) x)); [done|].
    by destruct (list_find _ accounts) as [[j b]|].
  - destruct (decide (strict_eq (get k a0) x)); [done|].
    rewrite (IH i) by done.
    destruct (list_find _ accounts) as [[j b]|]; [|done]. simpl.
    f_equal. f_equal. by repeat case_decide; simplify_eq.
Qed.

Section ResetRoundTrip.
Context `{Runtime}.

Lemma completeReset_ok e f b i acct t tok np :
  truthy (prop "email" b) = true →
  prop "token" b = Some (VStr tok) → tok ≠ "" →
  prop "newPassword" b = Some (VStr np) → np ≠ "" →
  find_by "email" (prop "email" b) (load f) = Some (i, acct) →
  get "resetTokenHash" acct = Some (VStr (sha256 tok)) → sha256 tok ≠ "" →
  get "resetTokenExpiry" acct = Some (VNum t) → t ≠ 0 →
  (now e ≤ t)%Z →
  completeReset e f (Resolved b) =
    Outcome
      (Some (<[i:=with_password e (scrypt np (randomHex e)) acct]> (load f)))
      (Response 200 (Json (VObj [("message", VStr "password updated")]))).
Proof.
  intros Hemail Htoken Htok Hnew Hnp Hfind Hhash Hhex Hexpiry Ht Hintime.
  unfold completeReset, then_catch, completeReset_then.
  rewrite !prop_or_empty, Hemail, Htoken, Hnew, !truthy_str_true by done.
  cbn [negb orb]. rewrite Hfind, Hhash, Hexpiry, truthy_str_true by done.
  cbn [truthy gt negb orb].
  rewrite (proj2 (Z.eqb_neq _ _)) by done. cbn [negb].
  rewrite bool_decide_eq_false_2 by lia.
  cbn [digest hashPassword mbind option_bind].
  by rewrite (proj2 (strict_eq_str _ _)).
Qed.

(** A reset request followed, within the hour, by a reset with the token
    that the request returned and a new password succeeds; after it a
    login with the new password answers 200, and a login with any
    password whose digests differ from the new hash answers 401. *)
Theorem reset_round_trip e1 e2 e3 f em i acct b1 b2 np :
  prop "email" b1 = Some (VStr em) → em ≠ "" →
  find_by "email" (Some (VStr em)) (load f) = Some (i, acct) →
  prop "email" b2 = Some (VStr em) →
  prop "token" b2 = field "token" (reply (requestReset e1 f (Resolved b1))) →
  prop "newPassword" b2 = Some (VStr np) → np ≠ "" →
  randomHex e1 ≠ "" → sha256 (randomHex e1) ≠ "" →
  now e1 + 1000 * 60 * 60 ≠ 0 →
  (now e2 ≤ now e1 + 1000 * 60 * 60)%Z →
  let f1 := commit f (requestReset e1 f (Resolved b1)) in
  let changed := completeReset e2 f1 (Resolved b2) in
  let f2 := commit f1 changed in
  status (reply changed) = 200
  ∧ status (reply (login e3 f2 (Resolved (credentials em np)))) = 200
  ∧ ∀ old,
      old ≠ "" →
      scrypt old (randomHex e2) ≠ scrypt np (randomHex e2) →
      md5 old ≠ scrypt np (randomHex e2) →
      login e3 f2 (Resolved (credentials em old))
      = refuse 401 "invalid credentials".
Proof.
  intros Hemail1 Hem Hfind Hemail2 Htoken Hnew Hnp Htok Hhex Hexp Hintime.
  cbn zeta.
  assert (truthy (prop "email" b1) = true) as Ht1
    by (rewrite Hemail1; by apply truthy_str_true).
  pose proof (requestReset_found e1 f b1 i acct Ht1) as Hissued.
  rewrite Hemail1 in Hissued. specialize (Hissued Hfind).
  rewrite Hissued in Htoken. rewrite Hissued.
  unfold field in Htoken. cbn [reply body prop get] in Htoken.
  rewrite decide_False, decide_True in Htoken by done.
  unfold commit, writeJSON. cbn [written].
  destruct (with_token_get e1 acct) as (Hmail1 & Hhash1 & Hexpiry1).
  assert (find_by "email" (Some (VStr em))
            (load (Some (<[i:=with_token e1 acct]> (load f))))
          = Some (i, with_token e1 acct)) as Hfind1.
  { cbn [load default readJSON]. eapply find_by_insert; [done|].
    rewrite Hmail1. by apply find_by_Some in Hfind as [_ ?]. }
  rewrite (completeReset_ok e2 _ b2 i (with_token e1 acct)
             (now e1 + 1000 * 60 * 60) (randomHex e1) np);
    [|by rewrite Hemail2; apply truthy_str_true|done|done|done|done
     |by rewrite Hemail2|done..].
  cbn [written reply status].
  set (acct2 := with_password e2 (scrypt np (randomHex e2))
                  (with_token e1 acct)).
  destruct (with_password_get e2 (scrypt np (randomHex e2))
              (with_token e1 acct)) as (Hmail2 & Hsalt2 & Hhash2 & _).
  fold acct2 in Hmail2, Hsalt2, Hhash2.
  assert (find_by "email" (Some (VStr em))
            (load (Some (<[i:=acct2]>
               (load (Some (<[i:=with_token e1 acct]> (load f)))))))
          = Some (i, acct2)) as Hfind2.
  { cbn [load default readJSON]. cbn [load default readJSON] in Hfind1.
    eapply find_by_insert; [done|].
    rewrite Hmail2, Hmail1. by apply find_by_Some in Hfind as [_ ?]. }
  split_and!; [done| |].
  - by erewrite login_strong.
  - intros old Hold Hstrong Hlegacy.
    eapply (login_mismatch e3 _ (credentials em old) old i acct2);
      [by apply truthy_str_true|done|done|exact Hfind2|exact Hsalt2|..];
      rewrite Hhash2; congruence.
Qed.

End ResetRoundTrip.

(** ** A pending reset and login *)

Section PendingReset.
Context `{Runtime}.

(** The answer of login depends on the accounts file only through the
    account found for the email: its salt, its hash and its public view. *)
Lemma login_reply_same e f1 f2 rq :
  (∀ x, match find_by "email" x (load f2) with
        | Some (_, a2) =>
            ∃ j a1, find_by "email" x (load f1) = Some (j, a1)
                    ∧ get "passwordSalt" a1 = get "passwordSalt" a2
                    ∧ get "passwordHash" a1 = get "passwordHash" a2
                    ∧ omit sensitive a1 = omit sensitive a2
        | None => find_by "email" x (load f1) = None
        end) →
  reply (login e f1 rq) = reply (login e f2 rq).
Proof.
  intros Hfind. unfold login, then_catch. destruct rq as [b|]; [|done].
  unfold login_then.
  destruct (negb _ || negb _); [done|].
  specialize (Hfind (prop "email" (or_empty b))).
  destruct (find_by _ _ (load f2)) as [[i2 a2]|].
  - destruct Hfind as (i1 & a1 & -> & -> & -> & Hview).
    destruct (hashPassword _ (get _ _)); [|done].
    cbn [mbind option_bind default].
    destruct (strict_eq _ _); [cbn [id reply]; by rewrite Hview|].
    destruct (digest _ _); [|done].
    destruct (strict_eq _ _); [|done].
    destruct (hashPassword _ _); cbn [id reply]; unfold upgraded;
      rewrite !omit_set_elem by elem_of_list; by rewrite Hview.
  - by rewrite Hfind.
Qed.

(** A reset request changes the answer of no login: whatever the two
    requests are, login answers after the reset request what it would
    have answered before it. *)
Theorem requestReset_keeps_login e e' f rq rq' :
  reply (login e' (commit f (requestReset e f rq)) rq')
  = reply (login e' f rq').
Proof.
  unfold requestReset, then_catch. destruct rq as [b|]; [|done].
  unfold requestReset_then.
  destruct (negb _); [done|].
  destruct (find_by _ _ _) as [[i acct]|] eqn:Hfound; [|done].
  apply find_by_Some in Hfound as [Hi _].
  destruct (with_token_get e acct) as (Hmail & _).
  apply login_reply_same. intros x.
  unfold commit, writeJSON. cbn [default id written load readJSON].
  fold (load f). rewrite (find_by_insert_same _ _ _ _ acct) by done.
  destruct (find_by "email" x (load f)) as [[j a]|] eqn:Hx; [|done].
  cbn [fmap option_fmap option_map fst snd]. eexists _, _. split; [done|].
  case_decide as Hj; [|done]. subst j.
  apply find_by_Some in Hx as [Hx _].
  assert (a = acct) as -> by congruence.
  unfold with_token. rewrite !omit_set_elem by elem_of_list.
  by rewrite !get_set_ne.
Qed.

End PendingReset.

(** ** Followers *)

Lemma followers_of_snoc x followers entry :
  followers_of x (followers ++ [entry])
  = (followers_of x followers
     ++ if strict_eq (get "accountId" entry) x then [entry] else [])%list.
Proof.
  unfold followers_of. rewrite filter_app. f_equal.
  rewrite filter_cons, filter_nil.
  by destruct (strict_eq _ _).
Qed.

Section FollowersProperties.
Context `{Runtime}.

Lemma notify_count ff b :
  truthy (prop "accountId" b) = true →
  truthy (prop "threshold" b) = true →
  written (notifyFollowers ff (Resolved b)) = None
  ∧ status (reply (notifyFollowers ff (Resolved b))) = 200
  ∧ field "count" (reply (notifyFollowers ff (Resolved b)))
    = Some (VNum (Z.of_nat
        (length (followers_of (prop "accountId" b) (load ff))))).
Proof.
  intros Hid Hthreshold. unfold notifyFollowers, then_catch, notifyFollowers_then.
  rewrite !prop_or_empty, Hid, Hthreshold. cbn [negb orb].
  by destruct (lt _ _).
Qed.

(** A follow request with an account id and an email answers 201 and
    adds one follower; the count that notify-followers reports then is one
    more for a request that names the same account id, and the same for
    one that names another. *)
Theorem follow_then_notify e ff b a b' :
  prop "accountId" b = Some (VStr a) → a ≠ "" →
  truthy (prop "email" b) = true →
  truthy (prop "accountId" b') = true →
  truthy (prop "threshold" b') = true →
  let added := follow e ff (Resolved b) in
  let count f := field "count" (reply (notifyFollowers f (Resolved b'))) in
  status (reply added) = 201
  ∧ written added = Some (load ff ++ [new_follower e (Some (VStr a))
                                         (prop "email" b) (prop "name" b)])%list
  ∧ ∃ c, count ff = Some (VNum c)
         ∧ count (commit ff added)
           = Some (VNum (if strict_eq (Some (VStr a)) (prop "accountId" b')
                         then c + 1 else c)).
Proof.
  intros Hid Ha Hemail Hid' Hthreshold. cbn zeta.
  unfold follow, then_catch, follow_then.
  rewrite !prop_or_empty, Hid, Hemail, truthy_str_true by done.
  cbn [negb orb default id reply status written].
  split_and!; [done..|]. eexists. split; [by apply notify_count|].
  destruct (notify_count
              (commit ff (Outcome (Some (load ff ++ [new_follower e (Some (VStr a))
                 (prop "email" b) (prop "name" b)])%list)
                 (Response 201 (Json (VObj (new_follower e (Some (VStr a))
                    (prop "email" b) (prop "name" b)))))))
              b' Hid' Hthreshold) as (_ & _ & ->).
  unfold commit, writeJSON. cbn [written load default id readJSON].
  rewrite followers_of_snoc, length_app.
  assert (get "accountId" (new_follower e (Some (VStr a)) (prop "email" b)
            (prop "name" b)) = Some (VStr a)) as -> by done.
  destruct (strict_eq _ _); cbn [length]; do 2 f_equal; lia.
Qed.

(** With a number as threshold, notify-followers reports the followers of
    the account as notified exactly when they are at least that many, and
    then lists one email per follower; it never writes.  The threshold 0
    counts as missing. *)
Theorem notify_threshold ff b n :
  truthy (prop "accountId" b) = true →
  prop "threshold" b = Some (VNum n) →
  let mine := followers_of (prop "accountId" b) (load ff) in
  let c := Z.of_nat (length mine) in
  let answer := notifyFollowers ff (Resolved b) in
  (n = 0 → answer = refuse 400 "accountId and threshold required")
  ∧ (n ≠ 0 →
     written answer = None
     ∧ status (reply answer) = 200
     ∧ field "count" (reply answer) = Some (VNum c)
     ∧ field "notified" (reply answer) = Some (VBool (bool_decide (n ≤ c)%Z))
     ∧ field "emails" (reply answer)
       = (if bool_decide (n ≤ c)%Z then Some (VArr (emails_of mine)) else None)
     ∧ length (emails_of mine) = length mine).
Proof.
  intros Hid Hthreshold. cbn zeta.
  unfold notifyFollowers, then_catch, notifyFollowers_then.
  rewrite !prop_or_empty, Hid, Hthreshold. cbn [negb orb truthy lt].
  split.
  - intros ->. done.
  - intros Hn. rewrite (proj2 (Z.eqb_neq _ _)) by done. cbn [negb].
    case_bool_decide as Hlt.
    + rewrite bool_decide_eq_false_2 by lia.
      split_and!; try done. apply length_fmap.
    + rewrite bool_decide_eq_true_2 by lia.
      split_and!; try done. apply length_fmap.
Qed.

End FollowersProperties.

(** ** Routes *)

(** A GET whose path starts with [/api/account] never falls through to
    the files or the 404: it gets the list of accounts when the path is
    [/api/accounts], and the get-by-id handler otherwise, also on the paths
    of the POST routes such as [/api/accounts/login]. *)
Theorem get_under_account_prefix url is_file :
  String.prefix "/api/account" (before_query url) = true →
  route_of "GET" url is_file
  = if String.eqb (before_query url) "/api/accounts" then ListAccounts
    else GetAccount.
Proof.
  intros Hprefix. unfold route_of. cbn [String.eqb Ascii.eqb Bool.eqb].
  rewrite !andb_false_r, !andb_true_r, Hprefix.
  by destruct (String.eqb _ "/api/accounts").
Qed.

(** On [/api/followers] only GET and POST are answered (and OPTIONS, by
    the preflight): for every other method the handler returns without
    writing a response. *)
Theorem followers_other_methods method url is_file :
  before_query url = "/api/followers" →
  method ≠ "OPTIONS" → method ≠ "GET" → method ≠ "POST" →
  route_of method url is_file = Unanswered.
Proof.
  intros Hurl Hopt%String.eqb_neq Hget%String.eqb_neq Hpost%String.eqb_neq.
  unfold route_of. rewrite Hurl, Hopt, Hget, Hpost.
  by rewrite !andb_false_r.
Qed.


(** ** The further scenarios, run *)

Lemma unique_emails_singleton a : unique_emails [a].
Proof.
  intros i j x y s Hi%lookup_lt_Some Hj%lookup_lt_Some _ _. simpl in *. lia.
Qed.

Lemma sanitize_keeps_the_rest_witness :
  sanitizeAccountsForPublic (Some [alice_pending])
  = [[("id", VStr "acct_1700000000000"); ("email", VStr "a@x.com");
      ("role", VStr "user"); ("createdAt", VStr "2023-11-14T22:13:20.000Z")]]
  ∧ ∃ view, sanitizeAccountsForPublic (Some [alice_pending]) !! 0%nat = Some view
            ∧ same_but sensitive alice_pending view.
Proof.
  split; [reflexivity|].
  destruct (sanitize_keeps_the_rest [alice_pending]) as (_ & Hkeeps & _).
  apply Hkeeps. reflexivity.
Defined.

Lemma emails_stay_unique_witness :
  unique_emails
    (load (@run demo (Some [alice])
       [(later, Signup (Resolved (credentials "b@x.com" "p2")));
        (too_late, Signup (Resolved (credentials "a@x.com" "p3")));
        (too_late, Update (Resolved (update_body "acct_1700000000000" "A" "d")))])).
Proof.
  apply (@emails_stay_unique demo (Some [alice])).
  apply unique_emails_singleton.
Defined.

Lemma signup_duplicate_email_witness :
  @signup demo later (Some [alice]) (Resolved (credentials "a@x.com" "other"))
  = refuse 409 "email exists".
Proof.
  apply (@signup_duplicate_email demo later (Some [alice])
           (credentials "a@x.com" "other") 0%nat alice); reflexivity.
Defined.

Lemma checks_come_before_the_write_witness :
  let o :=
    @handle demo later (Some [alice])
      (Login (Resolved (credentials "a@x.com" "wrong"))) in
  (written o = None ∧ commit (Some [alice]) o = Some [alice])
  ∨ (true = true ∧ is_Some (written o)
     ∧ (∀ rq, Login (Resolved (credentials "a@x.com" "wrong")) ≠ Login rq)
     ∧ deliver true (Login (Resolved (credentials "a@x.com" "wrong"))) o
       = catch_reply (Login (Resolved (credentials "a@x.com" "wrong")))).
Proof.
  apply (@checks_come_before_the_write demo later (Some [alice])
           (Login (Resolved (credentials "a@x.com" "wrong"))) true);
    discriminate.
Defined.

Lemma non_object_body_has_no_fields_witness :
  @signup demo noon None (Resolved (VArr [VStr "a@x.com"; VStr "p1"]))
  = refuse 400 "email and password required".
Proof.
  destruct (@non_object_body_has_no_fields demo noon None
              (VArr [VStr "a@x.com"; VStr "p1"]) I) as [Hsignup _].
  exact Hsignup.
Defined.

Lemma update_then_getById_witness :
  let updated :=
    update (Some [alice])
      (Resolved (update_body "acct_1700000000000" "Alice" "hello")) in
  let shown := getById (commit (Some [alice]) updated) (Some "acct_1700000000000") in
  status shown = 200
  ∧ field "name" shown = Some (VStr "Alice")
  ∧ field "description" shown = Some (VStr "hello")
  ∧ field "email" shown = Some (VStr "a@x.com").
Proof.
  destruct (update_then_getById (Some [alice])
              (update_body "acct_1700000000000" "Alice" "hello")
              "acct_1700000000000" "Alice" "hello" 0%nat alice
              eq_refl ltac:(discriminate) eq_refl eq_refl eq_refl)
    as (_ & _ & _ & Hstatus & Hname & Hdesc & Hrest).
  split_and!; [done..|].
  rewrite (Hrest "email"); [reflexivity|by apply not_sensitive_dec|done..].
Defined.

Lemma signup_then_getById_witness :
  let created :=
    @signup demo later (Some [alice]) (Resolved (credentials "b@x.com" "p2")) in
  let shown :=
    getById (commit (Some [alice]) created) (Some (acct_id (now later))) in
  status shown = 200
  ∧ field "email" shown = field "email" (reply created)
  ∧ field "role" shown = Some (VStr "user").
Proof.
  destruct (@signup_then_getById demo later (Some [alice])
              (credentials "b@x.com" "p2") "b@x.com" eq_refl I I
              eq_refl eq_refl)
    as (Hstatus & _ & _ & Hrole & _ & Hemail & _ & _ & Hsame).
  split_and!; [done|done|]. by rewrite Hsame, Hrole.
Defined.

Lemma reset_round_trip_witness :
  let f1 :=
    commit (Some [alice])
      (@requestReset demo noon (Some [alice])
         (Resolved (VObj [("email", VStr "a@x.com")]))) in
  let changed :=
    @completeReset demo later f1 (Resolved (reset_body "a@x.com" "00ff" "p2")) in
  let f2 := commit f1 changed in
  status (reply changed) = 200
  ∧ status (reply (@login demo too_late f2 (Resolved (credentials "a@x.com" "p2"))))
    = 200
  ∧ @login demo too_late f2 (Resolved (credentials "a@x.com" "p1"))
    = refuse 401 "invalid credentials".
Proof.
  destruct (@reset_round_trip demo noon later too_late (Some [alice])
              "a@x.com" 0%nat alice (VObj [("email", VStr "a@x.com")])
              (reset_body "a@x.com" "00ff" "p2") "p2"
              eq_refl ltac:(discriminate) eq_refl eq_refl eq_refl eq_refl
              ltac:(discriminate) ltac:(discriminate) ltac:(discriminate)
              ltac:(discriminate) ltac:(discriminate))
    as (Hchanged & Hnew & Hold).
  split_and!; [done..|]. apply Hold; discriminate.
Defined.

Lemma follow_then_notify_witness :
  let added :=
    follow later (Some [bob_follows])
      (Resolved (follow_body "acct_1700000000000" "c@x.com")) in
  field "count"
    (reply (@notifyFollowers demo (commit (Some [bob_follows]) added)
              (Resolved (notify_body "acct_1700000000000" 2))))
  = Some (VNum 2).
Proof.
  destruct (@follow_then_notify demo later (Some [bob_follows])
              (follow_body "acct_1700000000000" "c@x.com")
              "acct_1700000000000"
              (notify_body "acct_1700000000000" 2)
              eq_refl ltac:(discriminate) eq_refl eq_refl eq_refl)
    as (_ & _ & c & Hbefore & Hafter).
  injection Hbefore as <-. exact Hafter.
Defined.

Lemma notify_threshold_witness :
  field "notified"
    (reply (@notifyFollowers demo (Some [bob_follows])
              (Resolved (notify_body "acct_1700000000000" 2))))
  = Some (VBool false).
Proof.
  destruct (@notify_threshold demo (Some [bob_follows])
              (notify_body "acct_1700000000000" 2) 2 eq_refl eq_refl)
    as [_ Hanswer].
  destruct Hanswer as (_ & _ & _ & Hnotified & _); [discriminate|].
  exact Hnotified.
Defined.

Lemma get_under_account_prefix_witness :
  route_of "GET" "/api/accounts/login?id=acct_1" (Some false) = GetAccount.
Proof.
  apply (get_under_account_prefix "/api/accounts/login?id=acct_1" (Some false)).
  reflexivity.
Defined.

Lemma followers_other_methods_witness :
  route_of "DELETE" "/api/followers?x=1" None = Unanswered.
Proof.
  apply (followers_other_methods "DELETE" "/api/followers?x=1" None);
    (reflexivity || discriminate).
Defined.



(** C2 fails for an email that is not a string: with an array as email
    signup answers 201, and the login that follows with the same email
    and password answers 401, since [===] never holds between the array
    of the request and the array read from the file. *)
Lemma signup_then_login_array_email :
  let request := Resolved (array_email_credentials "a@x.com" "p1") in
  let created := @signup demo noon None request in
  status (reply created) = 201
  ∧ is_Some (field "id" (reply created))
  ∧ @login demo later (commit None created) request
    = refuse 401 "invalid credentials".
Proof. by split_and!. Qed.
